(** * The city weather pipeline: intake, enrichment, description

    A shallow embedding of the three Lambda handlers of the repository
    ([lambda/src/city-processor.ts], [lambda/src/weather-processor.ts] and
    [lambda/src/llm-processor.ts]) together with the DynamoDB table they
    share (declared in the CDK stack: partition key [cityId], sort key
    [timestamp], both strings).

    The handlers are [async] functions that [await] every call, so each one
    is a sequential program over the record store, the queues and the
    notification topic.  They are written below in a small monad that
    threads that world and carries JavaScript exceptions. *)

From Stdlib Require Import ZArith QArith Ascii String List Bool Lia.
From stdpp Require Import base option list strings pretty gmap.

#[local] Set Warnings "-register-all".
Local Open Scope string_scope.
Local Open Scope Z_scope.

(** ** JavaScript values *)

(** What [JSON.parse] can return, plus [undefined].  Objects are association
    lists: property order is insertion order.  A number is the rational
    that a finite binary64 value is; the handlers only move numbers
    around, apart from the product [seconds * 1000] of the two
    sunrise/sunset instants, which is rounded as binary64 rounds it
    ([binary64] below). *)
Inductive value : Type :=
  | VUndef
  | VNull
  | VBool (b : bool)
  | VNum (q : Q)
  | VStr (s : string)
  | VArr (l : list value)
  | VObj (fields : list (string * value)).

(** A thrown value: an [Error] instance (with its [message]) or anything
    else.  [catch (error)] blocks test [error instanceof Error]. *)
Inductive thrown : Type :=
  | ErrorObj (name message : string)
  | NonError (v : value).

Definition Error (msg : string) : thrown := ErrorObj "Error" msg.
Definition TypeError (msg : string) : thrown := ErrorObj "TypeError" msg.
Definition RangeError (msg : string) : thrown := ErrorObj "RangeError" msg.

(** [error instanceof Error ? error.message : "Unknown error"] *)
Definition error_message (e : thrown) : string :=
  match e with
  | ErrorObj _ m => m
  | NonError _ => "Unknown error"
  end.

(** ToBoolean, as used by [!x] and by [x ? a : b]. *)
Definition truthy (v : value) : bool :=
  match v with
  | VUndef | VNull => false
  | VBool b => b
  | VNum q => negb (Qeq_bool q 0)
  | VStr s => negb (String.eqb s "")
  | VArr _ | VObj _ => true
  end.

Fixpoint assoc (k : string) (fs : list (string * value)) : option value :=
  match fs with
  | [] => None
  | (k', v) :: r => if String.eqb k k' then Some v else assoc k r
  end.

(** [{ ...o, k: v }] on an object that may already have [k]: the property
    keeps its place and takes the new value, otherwise it is appended. *)
Fixpoint set_field (k : string) (v : value) (fs : list (string * value))
  : list (string * value) :=
  match fs with
  | [] => [(k, v)]
  | (k', v') :: r =>
      if String.eqb k k' then (k, v) :: r else (k', v') :: set_field k v r
  end.

(** [o.k] once [o] is known not to be [null] or [undefined]: a missing
    property, or any property of a primitive, reads as [undefined]. *)
Definition field (k : string) (o : value) : value :=
  match o with
  | VObj fs => default VUndef (assoc k fs)
  | _ => VUndef
  end.

Definition char_str (c : ascii) : string := String c "".

Fixpoint index_from (i : nat) (l : list value) : list (string * value) :=
  match l with
  | [] => []
  | v :: r => (pretty i, v) :: index_from (S i) r
  end.

(** The own enumerable properties copied by object spread [{ ...v }]. *)
Definition spread (v : value) : list (string * value) :=
  match v with
  | VObj fs => fs
  | VArr l => index_from 0 l
  | VStr s => index_from 0 (map (fun c => VStr (char_str c)) (list_ascii_of_string s))
  | _ => []
  end.

(** ** Strings *)

(** Strings are sequences of code units below 256, read as the characters
    U+0000 to U+00FF.  Among them [toLowerCase] maps the letters A to Z and
    the letters U+00C0 to U+00DE, the multiplication sign U+00D7 apart, to
    the character 32 places further, and leaves every other one alone. *)
Definition lower_char (c : ascii) : ascii :=
  let n := nat_of_ascii c in
  if ((65 <=? n)%nat && (n <=? 90)%nat)
     || ((192 <=? n)%nat && (n <=? 222)%nat && negb (n =? 215)%nat)
  then ascii_of_nat (n + 32) else c.

Fixpoint toLowerCase (s : string) : string :=
  match s with
  | "" => ""
  | String c r => String (lower_char c) (toLowerCase r)
  end.

(** The class [\s] restricted to 8-bit code units. *)
Definition is_space (c : ascii) : bool :=
  let n := nat_of_ascii c in
  ((9 <=? n)%nat && (n <=? 13)%nat) || (n =? 32)%nat || (n =? 160)%nat.

(** [s.replace(/\s+/g, "-")]: every maximal run of white space becomes one
    hyphen.  [in_run] tells that the previous unit was white space. *)
Fixpoint replace_spaces (in_run : bool) (s : string) : string :=
  match s with
  | "" => ""
  | String c r =>
      if is_space c
      then (if in_run then replace_spaces true r
            else String "-" (replace_spaces true r))
      else String c (replace_spaces false r)
  end.

(** [s.split("/")] *)
Fixpoint split_slash (cur : string) (s : string) : list string :=
  match s with
  | "" => [cur]
  | String c r =>
      if Ascii.eqb c "/" then cur :: split_slash "" r
      else split_slash (cur +:+ char_str c) r
  end.

Definition startsWith (p s : string) : bool := String.prefix p s.

(** ** Dates *)

Definition digit_char (d : Z) : ascii := ascii_of_nat (48 + Z.to_nat (d mod 10)).

(** [n] written with exactly [w] decimal digits (its low [w] digits). *)
Fixpoint pad (w : nat) (n : Z) : string :=
  match w with
  | O => ""
  | S w' => pad w' (n / 10) +:+ char_str (digit_char n)
  end.

(** Year, month and day of a day count since 1970-01-01 (proleptic
    Gregorian calendar, the one of ECMAScript dates). *)
Definition civil_from_days (days : Z) : Z * Z * Z :=
  let z := days + 719468 in
  let era := z / 146097 in
  let doe := z - era * 146097 in
  let yoe := (doe - doe / 1460 + doe / 36524 - doe / 146096) / 365 in
  let doy := doe - (365 * yoe + yoe / 4 - yoe / 100) in
  let mp := (5 * doy + 2) / 153 in
  let d := doy - (153 * mp + 2) / 5 + 1 in
  let m := if mp <? 10 then mp + 3 else mp - 9 in
  let y := yoe + era * 400 + (if m <=? 2 then 1 else 0) in
  (y, m, d).

Definition year_str (y : Z) : string :=
  if (0 <=? y) && (y <=? 9999) then pad 4 y
  else (if y <? 0 then "-" else "+") +:+ pad 6 (Z.abs y).

(** The ISO 8601 rendering [YYYY-MM-DDTHH:mm:ss.sssZ] of a time value in
    milliseconds since the epoch. *)
Definition iso_of_time (t : Z) : string :=
  let '(y, m, d) := civil_from_days (t / 86400000) in
  let r := t mod 86400000 in
  year_str y +:+ "-" +:+ pad 2 m +:+ "-" +:+ pad 2 d +:+ "T"
  +:+ pad 2 (r / 3600000) +:+ ":" +:+ pad 2 (r / 60000 mod 60)
  +:+ ":" +:+ pad 2 (r / 1000 mod 60) +:+ "." +:+ pad 3 (r mod 1000)
  +:+ "Z".

(** [new Date(t).toISOString()] for a time value [t]; [None] stands for the
    [RangeError] of an invalid date (beyond 8.64e15 ms from the epoch). *)
Definition toISOString (t : Z) : option string :=
  if Z.abs t <=? 8640000000000000 then Some (iso_of_time t) else None.

(** The time value of [new Date(q)] for a finite number [q]: truncation
    toward zero. *)
Definition time_of_number (q : Q) : Z := Z.quot (Qnum q) (Z.pos (Qden q)).

(** The integer nearest to [n / d], the even one of the two when [n / d]
    lies half way; [0 <= n] and [0 < d]. *)
Definition nearest_even (n d : Z) : Z :=
  let f := n / d in
  match 2 * (n mod d) ?= d with
  | Lt => f
  | Gt => f + 1
  | Eq => if Z.even f then f else f + 1
  end.

(** The binary64 value nearest to the real number [q] (round to nearest,
    ties to even): a 53-bit significand [m] and an exponent [e] of at
    least -1074, with value [m * 2^e]; [None] stands for an infinity,
    which is what a magnitude of 2^1024 or more rounds to. *)
Definition binary64 (q : Q) : option Q :=
  let n := Z.abs (Qnum q) in
  let d := Z.pos (Qden q) in
  if n =? 0 then Some 0%Q else
  let e0 := Z.log2 n - Z.log2 d - 52 in
  let below :=
    if 0 <=? e0 then n <? 2 ^ 52 * (d * 2 ^ e0)
    else n * 2 ^ (- e0) <? 2 ^ 52 * d in
  let e := Z.max (if below then e0 - 1 else e0) (-1074) in
  let m :=
    if 0 <=? e then nearest_even n (d * 2 ^ e)
    else nearest_even (n * 2 ^ (- e)) d in
  if (971 <? e) || ((e =? 971) && (m =? 2 ^ 53)) then None
  else
    let s := Z.sgn (Qnum q) in
    Some (if 0 <=? e then inject_Z (s * m * 2 ^ e)
          else Qred (Qmake (s * m) (Z.to_pos (2 ^ (- e))))).

(** [a * b] on numbers. *)
Definition times (a b : Q) : option Q := binary64 (a * b).

(** ** The platform *)

(** [process.env] variable names read by the handlers.  There is one
    table, so the value of [TABLE_NAME] plays no part below. *)
Definition TABLE_NAME := "TABLE_NAME".
Definition CITY_QUEUE_URL := "CITY_QUEUE_URL".
Definition WEATHER_QUEUE_URL := "WEATHER_QUEUE_URL".
Definition LLM_QUEUE_URL := "LLM_QUEUE_URL".
Definition NOTIFICATION_TOPIC_ARN := "NOTIFICATION_TOPIC_ARN".
Definition OPENWEATHER_API_KEY := "OPENWEATHER_API_KEY".
Definition OPENAI_API_KEY := "OPENAI_API_KEY".
Definition NODE_ENV := "NODE_ENV".

(** The response object of [fetch]: [ok], [status], [statusText] and what
    [response.json()] resolves to (or rejects with). *)
Record Response : Type := {
  ok : bool;
  status : Z;
  statusText : string;
  json : thrown + value;
}.

(** Built-ins and surroundings of a handler invocation that the repository
    does not define: the JSON codec, string conversions of non-primitive
    values, the process environment, the weather provider reached by
    [fetch], and the wording with which [marshall] of
    [@aws-sdk/util-dynamodb] refuses a number outside the safe integers,
    which differs between versions of that library.  Every statement
    below holds for any such runtime. *)
Record Runtime : Type := {
  JSON_parse : string -> thrown + value;
  JSON_stringify : value -> string;
  encodeURIComponent : string -> string;
  String_of : value -> string;
  Number_of : value -> option Q;
  process_env : string -> option string;
  process_uptime : Q;
  fetch : string -> thrown + Response;
  unsafe_number_message : Q -> string;
}.

(** An item of the table, as produced by [marshall]: attribute names with
    their values, none of them [undefined]. *)
Definition item : Type := list (string * value).

(** What the handlers did to the outside, in order.  Only calls that
    succeeded are recorded. *)
Inductive effect : Type :=
  | PutItem (it : item)
  | UpdateItem (key : string * string) (sets : list (string * value))
  | SendMessage (queueUrl : option string) (body : string)
      (attrs : list (string * value))
  | Publish (topicArn : option string) (subject message : string)
  | DeleteMessage (queueUrl : option string) (receiptHandle : string).

(** The world a handler runs in.  [table] is the single DynamoDB table,
    keyed by ([cityId], [timestamp]).  The three fault schedules say, call
    after call, whether the next request to DynamoDB, SQS and SNS fails and
    with what; an exhausted schedule means the service answers.  [clock]
    lists the successive readings of the wall clock in milliseconds. *)
Record World : Type := {
  table : gmap (string * string) item;
  log : list effect;
  ddb_faults : list (option thrown);
  sqs_faults : list (option thrown);
  sns_faults : list (option thrown);
  clock : list Z;
}.

Inductive outcome (A : Type) : Type :=
  | Returned (a : A)
  | Threw (e : thrown).
Arguments Returned {A} a.
Arguments Threw {A} e.

(** ** The monad of handler code *)

Definition M (A : Type) : Type := Runtime -> World -> outcome A * World.

Definition ret {A} (a : A) : M A := fun _ w => (Returned a, w).

Definition throw {A} (e : thrown) : M A := fun _ w => (Threw e, w).

Definition bind {A B} (c : M A) (k : A -> M B) : M B :=
  fun rt w =>
    match c rt w with
    | (Returned a, w') => k a rt w'
    | (Threw e, w') => (Threw e, w')
    end.

(** [try { body } catch (error) { handler }]: what [body] did before it
    threw stays done. *)
Definition try_catch {A} (body : M A) (handler : thrown -> M A) : M A :=
  fun rt w =>
    match body rt w with
    | (Returned a, w') => (Returned a, w')
    | (Threw e, w') => handler e rt w'
    end.

Notation "x <- c ;; k" := (bind c (fun x => k))
  (at level 100, c at next level, right associativity).
Notation "c ;; k" := (bind c (fun _ => k))
  (at level 100, right associativity).

Definition runtime : M Runtime := fun rt w => (Returned rt, w).

Definition getenv (name : string) : M (option string) :=
  fun rt w => (Returned (process_env rt name), w).

Definition lift_result {A} (r : thrown + A) : M A :=
  match r with
  | inl e => throw e
  | inr a => ret a
  end.

Definition json_parse (s : string) : M value :=
  fun rt w => lift_result (JSON_parse rt s) rt w.

Definition json_stringify (v : value) : M string :=
  fun rt w => (Returned (JSON_stringify rt v), w).

(** [o.k]: reading a property of [null] or [undefined] throws. *)
Definition prop (o : value) (k : string) : M value :=
  match o with
  | VUndef =>
      throw (TypeError ("Cannot read properties of undefined (reading '" +:+ k +:+ "')"))
  | VNull =>
      throw (TypeError ("Cannot read properties of null (reading '" +:+ k +:+ "')"))
  | _ => ret (field k o)
  end.

(** [a[0]] *)
Definition first_element (a : value) : M value :=
  match a with
  | VUndef => throw (TypeError "Cannot read properties of undefined (reading '0')")
  | VNull => throw (TypeError "Cannot read properties of null (reading '0')")
  | VArr l => ret (default VUndef (head l))
  | VStr (String c _) => ret (VStr (char_str c))
  | _ => ret (field "0" a)
  end.

(** The text of a value inside a template literal; the text of numbers,
    arrays and objects is the runtime's. *)
Definition shown (rt : Runtime) (v : value) : string :=
  match v with
  | VStr s => s
  | VUndef => "undefined"
  | VNull => "null"
  | VBool true => "true"
  | VBool false => "false"
  | _ => String_of rt v
  end.

Definition to_string (v : value) : M string :=
  fun rt w => (Returned (shown rt v), w).

(** Numeric conversion by [*]; [None] is [NaN]. *)
Definition to_number (v : value) : M (option Q) :=
  match v with
  | VNum q => ret (Some q)
  | VUndef => ret None
  | VNull => ret (Some 0%Q)
  | VBool b => ret (Some (if b then 1%Q else 0%Q))
  | _ => fun rt w => (Returned (Number_of rt v), w)
  end.

(** [Date.now()] *)
Definition Date_now : M Z :=
  fun _ w =>
    (Returned (hd 0 (clock w)),
     {| table := table w; log := log w; ddb_faults := ddb_faults w;
        sqs_faults := sqs_faults w; sns_faults := sns_faults w;
        clock := tl (clock w) |}).

Definition date_toISOString (t : Z) : M string :=
  match toISOString t with
  | Some s => ret s
  | None => throw (RangeError "Invalid time value")
  end.

(** [new Date().toISOString()]: the current time is always a valid date. *)
Definition now_iso : M string := t <- Date_now ;; ret (iso_of_time t).

(** ** The AWS clients *)

Definition undefined_values_message : string :=
  "Pass options.removeUndefinedValues=true to remove undefined values from map/array/set.".

Fixpoint has_undefined (v : value) : bool :=
  match v with
  | VUndef => true
  | VArr l => existsb has_undefined l
  | VObj fs => existsb (fun kv => has_undefined (snd kv)) fs
  | _ => false
  end.

Definition MAX_SAFE_INTEGER : Q := 9007199254740991.

(** A number above [Number.MAX_SAFE_INTEGER] or below
    [Number.MIN_SAFE_INTEGER]. *)
Definition unsafe_number (q : Q) : bool :=
  negb (Qle_bool q MAX_SAFE_INTEGER) || negb (Qle_bool (- MAX_SAFE_INTEGER) q).

(** What [marshall] refuses to convert. *)
Inductive refusal : Type :=
  | RefusedUndefined
  | RefusedNumber (q : Q).

Definition first_some {A B} (f : A -> option B) : list A -> option B :=
  fix first (l : list A) : option B :=
    match l with
    | [] => None
    | a :: r =>
        match f a with
        | Some b => Some b
        | None => first r
        end
    end.

(** The first value, in the order in which [marshall] converts the
    elements of arrays and the properties of objects, that it refuses: an
    [undefined], or a number that is not safe. *)
Fixpoint refused (v : value) : option refusal :=
  match v with
  | VUndef => Some RefusedUndefined
  | VNum q => if unsafe_number q then Some (RefusedNumber q) else None
  | VArr l => first_some refused l
  | VObj fs => first_some (fun kv => refused (snd kv)) fs
  | _ => None
  end.

(** [marshall(data)] of [@aws-sdk/util-dynamodb] with default options: it
    throws at the first value it refuses. *)
Definition marshall (data : list (string * value)) : M item :=
  match first_some (fun kv => refused (snd kv)) data with
  | Some RefusedUndefined => throw (Error undefined_values_message)
  | Some (RefusedNumber q) =>
      rt <- runtime ;;
      throw (Error (unsafe_number_message rt q))
  | None => ret data
  end.

Definition unmarshall (it : item) : value := VObj it.

(** The primary key of an item under the table's schema: both key
    attributes must be strings. *)
Definition item_key (it : item) : option (string * string) :=
  match assoc "cityId" it, assoc "timestamp" it with
  | Some (VStr c), Some (VStr t) => Some (c, t)
  | _, _ => None
  end.

Definition validation_error : thrown :=
  ErrorObj "ValidationException"
    "One or more parameter values were invalid: Missing the key or type mismatch for the key".

(** What a call resolves to for the entry of the schedule it consumes. *)
Definition answer (f : option thrown) : outcome unit :=
  match f with
  | Some e => Threw e
  | None => Returned tt
  end.

Definition ddb_call : M unit :=
  fun _ w =>
    (answer (hd None (ddb_faults w)),
     {| table := table w; log := log w; ddb_faults := tl (ddb_faults w);
        sqs_faults := sqs_faults w; sns_faults := sns_faults w;
        clock := clock w |}).

Definition sqs_call : M unit :=
  fun _ w =>
    (answer (hd None (sqs_faults w)),
     {| table := table w; log := log w; ddb_faults := ddb_faults w;
        sqs_faults := tl (sqs_faults w); sns_faults := sns_faults w;
        clock := clock w |}).

Definition sns_call : M unit :=
  fun _ w =>
    (answer (hd None (sns_faults w)),
     {| table := table w; log := log w; ddb_faults := ddb_faults w;
        sqs_faults := sqs_faults w; sns_faults := tl (sns_faults w);
        clock := clock w |}).

Definition record_effect (e : effect) : M unit :=
  fun _ w =>
    (Returned tt,
     {| table := table w; log := log w ++ [e]; ddb_faults := ddb_faults w;
        sqs_faults := sqs_faults w; sns_faults := sns_faults w;
        clock := clock w |}).

Definition write_table (k : string * string) (it : item) : M unit :=
  fun _ w =>
    (Returned tt,
     {| table := <[k := it]> (table w); log := log w;
        ddb_faults := ddb_faults w; sqs_faults := sqs_faults w;
        sns_faults := sns_faults w; clock := clock w |}).

Definition read_table (k : string * string) : M (option item) :=
  fun _ w => (Returned (table w !! k), w).

(** [dynamodb.send(new PutItemCommand({ TableName, Item }))]: an
    unconditional put under the item's own key. *)
Definition dynamodb_put (it : item) : M unit :=
  ddb_call ;;
  match item_key it with
  | None => throw validation_error
  | Some k => write_table k it ;; record_effect (PutItem it)
  end.

(** [dynamodb.send(new GetItemCommand({ TableName, Key }))]: [result.Item] *)
Definition dynamodb_get (key : item) : M (option item) :=
  ddb_call ;;
  match item_key key with
  | None => throw validation_error
  | Some k => read_table k
  end.

(** The assignments of a [SET] update expression, applied in order. *)
Definition apply_sets (sets : list (string * value)) (it : item) : item :=
  fold_left (fun it kv => set_field (fst kv) (snd kv) it) sets it.

(** The attributes of the table's primary key. *)
Definition key_attributes : list string := ["cityId"; "timestamp"].

Definition key_update_error (attribute : string) : thrown :=
  ErrorObj "ValidationException"
    ("One or more parameter values were invalid: Cannot update attribute "
     +:+ attribute +:+ ". This attribute is part of the key").

(** [dynamodb.send(new UpdateItemCommand({ Key, UpdateExpression: "SET ..." }))]:
    DynamoDB refuses an expression that assigns an attribute of the
    primary key; otherwise the named attributes are assigned on the item
    under [Key], which is created when absent. *)
Definition dynamodb_update (key : item) (sets : list (string * value)) : M unit :=
  ddb_call ;;
  match find (fun kv => existsb (String.eqb (fst kv)) key_attributes) sets with
  | Some kv => throw (key_update_error (fst kv))
  | None =>
      match item_key key with
      | None => throw validation_error
      | Some k =>
          old <- read_table k ;;
          write_table k (apply_sets sets (default key old)) ;;
          record_effect (UpdateItem k sets)
      end
  end.

Definition sqs_send (queue : string) (body : string)
    (attrs : list (string * value)) : M unit :=
  url <- getenv queue ;;
  sqs_call ;;
  record_effect (SendMessage url body attrs).

Definition sqs_delete (queue : string) (receiptHandle : string) : M unit :=
  url <- getenv queue ;;
  sqs_call ;;
  record_effect (DeleteMessage url receiptHandle).

Definition sns_publish (subject message : string) : M unit :=
  arn <- getenv NOTIFICATION_TOPIC_ARN ;;
  sns_call ;;
  record_effect (Publish arn subject message).

(** ** lambda/src/city-processor.ts *)

Record APIGatewayProxyEvent : Type := {
  httpMethod : string;
  path : string;
  body : option string;
}.

Record APIGatewayProxyResult : Type := {
  statusCode : Z;
  headers : list (string * string);
  response_body : string;
}.

Definition cors_headers : list (string * string) :=
  [("Content-Type", "application/json");
   ("Access-Control-Allow-Origin", "*");
   ("Access-Control-Allow-Headers",
    "Content-Type,X-Amz-Date,Authorization,X-Api-Key,X-Amz-Security-Token");
   ("Access-Control-Allow-Methods", "GET,POST,PUT,DELETE,OPTIONS")].

Definition createResponse (code : Z) (body : value) : M APIGatewayProxyResult :=
  s <- json_stringify body ;;
  ret {| statusCode := code; headers := cors_headers; response_body := s |}.

(** The slug of a city name followed by the current time:
    [`${cityName.toLowerCase().replace(/\s+/g, "-")}-${Date.now()}`] *)
Definition make_cityId (cityName : string) (now : Z) : string :=
  replace_spaces false (toLowerCase cityName) +:+ "-" +:+ pretty now.

(** The record intake builds for a request. *)
Definition pending_record (cityId : string) (cityName countryCode : value)
    (timestamp : string) : list (string * value) :=
  [("cityId", VStr cityId); ("cityName", cityName);
   ("countryCode", countryCode); ("status", VStr "pending");
   ("timestamp", VStr timestamp)].

Definition accepted_body (cityId : string) (cityName : value)
    (timestamp : string) : value :=
  VObj [("message", VStr "City processing started");
        ("cityId", VStr cityId); ("cityName", cityName);
        ("status", VStr "pending"); ("timestamp", VStr timestamp);
        ("statusUrl", VStr ("/status/" +:+ cityId))].

Definition error_body (error message timestamp : string) : value :=
  VObj [("error", VStr error); ("message", VStr message);
        ("timestamp", VStr timestamp)].

Definition processCityRequest (body : option string) (timestamp : string)
  : M APIGatewayProxyResult :=
  match body with
  | None | Some "" =>
      createResponse 400
        (error_body "Bad Request" "Request body is required" timestamp)
  | Some body =>
      try_catch
        (requestData <- json_parse body ;;
         cityName <- prop requestData "cityName" ;;
         if negb (truthy cityName) then
           createResponse 400
             (error_body "Bad Request" "cityName is required" timestamp)
         else
           name <- match cityName with
                   | VStr s => ret s
                   | _ => throw (TypeError
                            "requestData.cityName.toLowerCase is not a function")
                   end ;;
           now <- Date_now ;;
           let cityId := make_cityId name now in
           countryCode <- prop requestData "countryCode" ;;
           let processingData :=
             pending_record cityId cityName countryCode timestamp in
           (* Save initial data to DynamoDB *)
           it <- marshall processingData ;;
           dynamodb_put it ;;
           (* Send message to city processing queue *)
           msg <- json_stringify (VObj processingData) ;;
           sqs_send CITY_QUEUE_URL msg
             [("cityId", VStr cityId); ("cityName", cityName)] ;;
           (* Send notification *)
           note <- json_stringify
                     (VObj [("message", VStr "City processing started");
                            ("cityId", VStr cityId); ("cityName", cityName);
                            ("timestamp", VStr timestamp)]) ;;
           sns_publish "City Processing Started" note ;;
           createResponse 202 (accepted_body cityId cityName timestamp))
        (fun error =>
           createResponse 500
             (error_body "Internal Server Error"
                "Failed to process city request" timestamp))
  end.

(** The key every status lookup and status update uses: the job's
    [cityId] with the fixed sort key ["latest"]. *)
Definition latest_key (cityId : value) : list (string * value) :=
  [("cityId", cityId); ("timestamp", VStr "latest")].

Definition status_body (data : value) : value :=
  VObj [("cityId", field "cityId" data); ("cityName", field "cityName" data);
        ("status", field "status" data); ("timestamp", field "timestamp" data);
        ("weatherData", field "weatherData" data);
        ("llmDescription", field "llmDescription" data);
        ("error", field "error" data)].

Definition getProcessingStatus (cityId : value) : M APIGatewayProxyResult :=
  try_catch
    (key <- marshall (latest_key cityId) ;;
     result <- dynamodb_get key ;;
     match result with
     | None =>
         id <- to_string cityId ;;
         ts <- now_iso ;;
         createResponse 404
           (error_body "Not Found"
              ("No processing data found for city ID: " +:+ id) ts)
     | Some it =>
         createResponse 200 (status_body (unmarshall it))
     end)
    (fun error =>
       ts <- now_iso ;;
       createResponse 500
         (error_body "Internal Server Error"
            "Failed to get processing status" ts)).

Definition or_default (o : option string) (d : string) : string :=
  match o with
  | None | Some "" => d
  | Some s => s
  end.

Definition handler (event : APIGatewayProxyEvent) : M APIGatewayProxyResult :=
  try_catch
    (timestamp <- now_iso ;;
     if String.eqb (path event) "/health" && String.eqb (httpMethod event) "GET"
     then
       rt <- runtime ;;
       env <- getenv NODE_ENV ;;
       createResponse 200
         (VObj [("message", VStr "Weather Processing Service is healthy");
                ("timestamp", VStr timestamp); ("status", VStr "OK");
                ("uptime", VNum (process_uptime rt));
                ("environment", VStr (or_default env "development"))])
     else if startsWith "/status/" (path event)
             && String.eqb (httpMethod event) "GET"
     then
       let cityId :=
         match nth_error (split_slash "" (path event)) 2 with
         | Some s => VStr s
         | None => VUndef
         end in
       getProcessingStatus cityId
     else if String.eqb (path event) "/cities"
             && String.eqb (httpMethod event) "POST"
     then processCityRequest (body event) timestamp
     else
       createResponse 404
         (VObj [("error", VStr "Not Found");
                ("message", VStr ("Path " +:+ path event +:+ " not found"));
                ("timestamp", VStr timestamp); ("path", VStr (path event));
                ("method", VStr (httpMethod event))]))
    (fun error =>
       ts <- now_iso ;;
       createResponse 500
         (error_body "Internal Server Error" "An unexpected error occurred" ts)).

(** ** lambda/src/weather-processor.ts *)

Record SQSRecord : Type := {
  record_body : string;
  receiptHandle : string;
}.

(** The assignments of the update expression: [#status] and [#timestamp],
    and [#error] between them when an error text is given and not empty. *)
Definition status_sets (status : string) (error : option string)
    (timestamp : string) : list (string * value) :=
  [("status", VStr status)]
  ++ match error with
     | None | Some "" => []
     | Some e => [("error", VStr e)]
     end
  ++ [("timestamp", VStr timestamp)].

(** [updateProcessingStatus(cityId, status, error?)]: a best-effort update
    of the record under ([cityId], ["latest"]); whatever goes wrong inside
    is logged and swallowed.  Its expression assigns [#timestamp], the sort
    key of the table. *)
Definition updateProcessingStatus (cityId : value) (status : string)
    (error : option string) : M unit :=
  try_catch
    (ts <- now_iso ;;
     key <- marshall (latest_key cityId) ;;
     dynamodb_update key (status_sets status error ts))
    (fun _ => ret tt).

(** [new Date(seconds * 1000).toISOString()] *)
Definition seconds_toISOString (seconds : value) : M string :=
  n <- to_number seconds ;;
  match n with
  | None => throw (RangeError "Invalid time value")
  | Some q =>
      match times q 1000 with
      | None => throw (RangeError "Invalid time value")
      | Some ms => date_toISOString (time_of_number ms)
      end
  end.

Definition fetchWeatherData (cityName countryCode : value) : M value :=
  apiKey <- getenv OPENWEATHER_API_KEY ;;
  match apiKey with
  | None | Some "" => throw (Error "OpenWeather API key not configured")
  | Some apiKey =>
      location <- (if truthy countryCode then
                     a <- to_string cityName ;;
                     b <- to_string countryCode ;;
                     ret (a +:+ "," +:+ b)
                   else to_string cityName) ;;
      rt <- runtime ;;
      let url := "https://api.openweathermap.org/data/2.5/weather?q="
                 +:+ encodeURIComponent rt location
                 +:+ "&appid=" +:+ apiKey +:+ "&units=metric" in
      response <- lift_result (fetch rt url) ;;
      if negb (ok response) then
        throw (Error ("Weather API error: " +:+ pretty (status response)
                      +:+ " " +:+ statusText response))
      else
        data <- lift_result (json response) ;;
        main <- prop data "main" ;;
        temp <- prop main "temp" ;;
        humidity <- prop main "humidity" ;;
        weather <- prop data "weather" ;;
        weather0 <- first_element weather ;;
        description <- prop weather0 "description" ;;
        wind <- prop data "wind" ;;
        speed <- prop wind "speed" ;;
        pressure <- prop main "pressure" ;;
        visibility <- prop data "visibility" ;;
        sys <- prop data "sys" ;;
        sunrise_s <- prop sys "sunrise" ;;
        sunrise <- seconds_toISOString sunrise_s ;;
        sunset_s <- prop sys "sunset" ;;
        sunset <- seconds_toISOString sunset_s ;;
        ret (VObj [("temperature", temp); ("humidity", humidity);
                   ("description", description); ("windSpeed", speed);
                   ("pressure", pressure); ("visibility", visibility);
                   ("sunrise", VStr sunrise); ("sunset", VStr sunset)])
  end.

(** [{ ...processingData, status: "weather_processing", weatherData, timestamp }] *)
Definition enriched_record (processingData weatherData : value)
    (timestamp : string) : list (string * value) :=
  set_field "timestamp" (VStr timestamp)
    (set_field "weatherData" weatherData
       (set_field "status" (VStr "weather_processing")
          (spread processingData))).

Definition failure_note (message : string) (cityId cityName : value)
    (error timestamp : string) : value :=
  VObj [("message", VStr message); ("cityId", cityId);
        ("cityName", cityName); ("error", VStr error);
        ("timestamp", VStr timestamp)].

(** The [try] block of [processWeatherRecord]. *)
Definition processWeatherRecord_try (record : SQSRecord)
    (processingData : value) : M unit :=
  _ <- prop processingData "cityName" ;;
  (* Update status to weather_processing *)
  cityId <- prop processingData "cityId" ;;
  updateProcessingStatus cityId "weather_processing" None ;;
  (* Fetch weather data from OpenWeather API *)
  cityName <- prop processingData "cityName" ;;
  countryCode <- prop processingData "countryCode" ;;
  weatherData <- fetchWeatherData cityName countryCode ;;
  ts <- now_iso ;;
  let updatedData := enriched_record processingData weatherData ts in
  (* Save updated data to DynamoDB *)
  it <- marshall updatedData ;;
  dynamodb_put it ;;
  (* Send message to LLM processing queue *)
  msg <- json_stringify (VObj updatedData) ;;
  sqs_send LLM_QUEUE_URL msg
    [("cityId", cityId); ("cityName", cityName)] ;;
  (* Send notification *)
  ts' <- now_iso ;;
  note <- json_stringify
            (VObj [("message", VStr "Weather data retrieved successfully");
                   ("cityId", cityId); ("cityName", cityName);
                   ("weatherData", weatherData);
                   ("timestamp", VStr ts')]) ;;
  sns_publish "Weather Data Retrieved" note ;;
  (* Delete message from queue *)
  sqs_delete WEATHER_QUEUE_URL (receiptHandle record) ;;
  _ <- prop processingData "cityName" ;;
  ret tt.

(** Its [catch (error)] block. *)
Definition processWeatherRecord_catch (record : SQSRecord)
    (processingData : value) (error : thrown) : M unit :=
  (* Update status to failed *)
  cityId <- prop processingData "cityId" ;;
  updateProcessingStatus cityId "failed" (Some (error_message error)) ;;
  (* Send error notification *)
  cityName <- prop processingData "cityName" ;;
  ts <- now_iso ;;
  note <- json_stringify
            (failure_note "Weather processing failed" cityId cityName
               (error_message error) ts) ;;
  sns_publish "Weather Processing Failed" note ;;
  (* Delete message from queue to prevent infinite retries *)
  sqs_delete WEATHER_QUEUE_URL (receiptHandle record).

Definition processWeatherRecord (record : SQSRecord) : M unit :=
  processingData <- json_parse (record_body record) ;;
  try_catch (processWeatherRecord_try record processingData)
    (processWeatherRecord_catch record processingData).

(** The loop of an SQS-triggered handler: an exception escaping the
    processing of one record is logged and the next record is taken. *)
Fixpoint for_each_record (process : SQSRecord -> M unit)
    (records : list SQSRecord) : M unit :=
  match records with
  | [] => ret tt
  | record :: rest =>
      try_catch (process record) (fun _ => ret tt) ;;
      for_each_record process rest
  end.

(** [handler] of weather-processor.ts. *)
Definition weather_handler (records : list SQSRecord) : M unit :=
  for_each_record processWeatherRecord records.

(** ** lambda/src/llm-processor.ts

    The file has its own copy of [updateProcessingStatus], word for word
    the one of weather-processor.ts; the definition above serves both. *)

(** [generateWeatherDescription] returns on its first statement; the
    credential check and the call to OpenAI that follow it in the source
    are never reached. *)
Definition generateWeatherDescription (processingData : value) : M string :=
  cityName <- prop processingData "cityName" ;;
  name <- to_string cityName ;;
  ret ("Fake description for " +:+ name +:+ char_str (ascii_of_nat 10)).

(** The two guards that follow that [return] in the source and that no
    execution reaches: the credential check and the weather payload check
    that precede the request to OpenAI. *)
Definition generateWeatherDescription_unreached_guards
    (processingData : value) : M unit :=
  apiKey <- getenv OPENAI_API_KEY ;;
  match apiKey with
  | None | Some "" => throw (Error "OpenAI API key not configured")
  | Some _ =>
      weatherData <- prop processingData "weatherData" ;;
      if negb (truthy weatherData)
      then throw (Error "Weather data not available for LLM processing")
      else ret tt
  end.

(** [{ ...processingData, status: "completed", llmDescription, timestamp }] *)
Definition completed_record (processingData : value) (llmDescription : string)
    (timestamp : string) : list (string * value) :=
  set_field "timestamp" (VStr timestamp)
    (set_field "llmDescription" (VStr llmDescription)
       (set_field "status" (VStr "completed") (spread processingData))).

(** The [try] block of [processLLMRecord]. *)
Definition processLLMRecord_try (record : SQSRecord)
    (processingData : value) : M unit :=
  _ <- prop processingData "cityName" ;;
  (* Update status to llm_processing *)
  cityId <- prop processingData "cityId" ;;
  updateProcessingStatus cityId "llm_processing" None ;;
  (* Generate description using OpenAI *)
  llmDescription <- generateWeatherDescription processingData ;;
  ts <- now_iso ;;
  let completedData := completed_record processingData llmDescription ts in
  (* Save completed data to DynamoDB *)
  it <- marshall completedData ;;
  dynamodb_put it ;;
  (* Send completion notification *)
  cityName <- prop processingData "cityName" ;;
  weatherData <- prop processingData "weatherData" ;;
  ts' <- now_iso ;;
  note <- json_stringify
            (VObj [("message", VStr "Weather processing completed successfully");
                   ("cityId", cityId); ("cityName", cityName);
                   ("weatherData", weatherData);
                   ("llmDescription", VStr llmDescription);
                   ("timestamp", VStr ts')]) ;;
  sns_publish "Weather Processing Completed" note ;;
  (* Delete message from queue *)
  sqs_delete LLM_QUEUE_URL (receiptHandle record) ;;
  _ <- prop processingData "cityName" ;;
  ret tt.

(** Its [catch (error)] block. *)
Definition processLLMRecord_catch (record : SQSRecord)
    (processingData : value) (error : thrown) : M unit :=
  (* Update status to failed *)
  cityId <- prop processingData "cityId" ;;
  updateProcessingStatus cityId "failed" (Some (error_message error)) ;;
  (* Send error notification *)
  cityName <- prop processingData "cityName" ;;
  ts <- now_iso ;;
  note <- json_stringify
            (failure_note "LLM processing failed" cityId cityName
               (error_message error) ts) ;;
  sns_publish "LLM Processing Failed" note ;;
  (* Delete message from queue to prevent infinite retries *)
  sqs_delete LLM_QUEUE_URL (receiptHandle record).

Definition processLLMRecord (record : SQSRecord) : M unit :=
  processingData <- json_parse (record_body record) ;;
  try_catch (processLLMRecord_try record processingData)
    (processLLMRecord_catch record processingData).

(** [handler] of llm-processor.ts. *)
Definition llm_handler (records : list SQSRecord) : M unit :=
  for_each_record processLLMRecord records.

(** ** A sample runtime

    A concrete runtime and concrete worlds, used to run the handlers on
    explicit inputs. *)

Definition dq : string := char_str (ascii_of_nat 34).
Definition quoted (s : string) : string := dq +:+ s +:+ dq.

Definition join_comma (l : list string) : string :=
  match l with
  | [] => ""
  | s :: r => fold_left (fun acc x => acc +:+ "," +:+ x) r s
  end.

(** JSON text of a value whose strings need no escaping and whose numbers
    are integers; properties holding [undefined] are left out. *)
Fixpoint sample_stringify (v : value) : string :=
  match v with
  | VUndef | VNull => "null"
  | VBool true => "true"
  | VBool false => "false"
  | VNum q => pretty (Qnum q)
  | VStr s => quoted s
  | VArr l => "[" +:+ join_comma (map sample_stringify l) +:+ "]"
  | VObj fs =>
      "{" +:+ join_comma
                ((fix members (fs : list (string * value)) : list string :=
                    match fs with
                    | [] => []
                    | (k, VUndef) :: r => members r
                    | (k, v) :: r =>
                        (quoted k +:+ ":" +:+ sample_stringify v) :: members r
                    end) fs) +:+ "}"
  end.

Fixpoint lookup_doc (docs : list (string * value)) (s : string) : thrown + value :=
  match docs with
  | [] => inl (ErrorObj "SyntaxError" "Unexpected token in JSON")
  | (text, v) :: r => if String.eqb s text then inr v else lookup_doc r s
  end.

Definition london_request_value : value :=
  VObj [("cityName", VStr "London"); ("countryCode", VStr "GB")].

Definition london_request : string := sample_stringify london_request_value.

(** A request that names no country. *)
Definition paris_request_value : value := VObj [("cityName", VStr "Paris")].
Definition paris_request : string := sample_stringify paris_request_value.

Definition empty_name_request_value : value := VObj [("cityName", VStr "")].
Definition empty_name_request : string := sample_stringify empty_name_request_value.

Definition london_time : Z := 1704110400000.
Definition london_timestamp : string := "2024-01-01T12:00:00.000Z".
Definition london_id : string := "london-1704110400000".

(** The Queue A message intake sends for the London request. *)
Definition london_pending : value :=
  VObj (pending_record london_id (VStr "London") (VStr "GB") london_timestamp).
Definition london_message : string := sample_stringify london_pending.

Definition london_weather_response : value :=
  VObj [("main", VObj [("temp", VNum 15); ("humidity", VNum 65);
                       ("pressure", VNum 1013)]);
        ("weather", VArr [VObj [("description", VStr "scattered clouds")]]);
        ("wind", VObj [("speed", VNum 3)]);
        ("visibility", VNum 10000);
        ("sys", VObj [("sunrise", VNum 1704096900);
                      ("sunset", VNum 1704131100)])].

Definition london_weather : value :=
  VObj [("temperature", VNum 15); ("humidity", VNum 65);
        ("description", VStr "scattered clouds"); ("windSpeed", VNum 3);
        ("pressure", VNum 1013); ("visibility", VNum 10000);
        ("sunrise", VStr "2024-01-01T08:15:00.000Z");
        ("sunset", VStr "2024-01-01T17:45:00.000Z")].

Definition enrichment_timestamp : string := "2024-01-01T12:00:01.000Z".

(** The Queue B message enrichment sends for the London job. *)
Definition london_enriched : value :=
  VObj (enriched_record london_pending london_weather enrichment_timestamp).
Definition london_enriched_message : string := sample_stringify london_enriched.

Definition sample_docs : list (string * value) :=
  [(london_request, london_request_value);
   (paris_request, paris_request_value);
   (empty_name_request, empty_name_request_value);
   (london_message, london_pending);
   (london_enriched_message, london_enriched);
   ("null", VNull)].

Definition sample_env (with_weather_key with_openai_key : bool) (name : string)
  : option string :=
  if String.eqb name TABLE_NAME then Some "city-weather-data"
  else if String.eqb name CITY_QUEUE_URL then Some "https://sqs.example/city-processing-queue"
  else if String.eqb name WEATHER_QUEUE_URL then Some "https://sqs.example/weather-processing-queue"
  else if String.eqb name LLM_QUEUE_URL then Some "https://sqs.example/llm-processing-queue"
  else if String.eqb name NOTIFICATION_TOPIC_ARN then Some "arn:aws:sns:weather-processing-notifications"
  else if String.eqb name OPENWEATHER_API_KEY then
    (if with_weather_key then Some "weather-key" else None)
  else if String.eqb name OPENAI_API_KEY then
    (if with_openai_key then Some "openai-key" else None)
  else None.

Definition sample_unsafe_number_message (q : Q) : string :=
  "Number " +:+ pretty (Qnum q)
  +:+ " is outside the safe integers. Use BigInt.".

(** A runtime whose weather provider answers every request with the London
    observation; the two flags say which credentials are configured. *)
Definition sample_runtime (with_weather_key with_openai_key : bool) : Runtime :=
  {| JSON_parse := lookup_doc sample_docs;
     JSON_stringify := sample_stringify;
     encodeURIComponent := fun s => s;
     String_of := fun _ => "[object Object]";
     Number_of := fun _ => None;
     process_env := sample_env with_weather_key with_openai_key;
     process_uptime := 3600;
     fetch := fun _ =>
       inr {| ok := true; status := 200; statusText := "OK";
              json := inr london_weather_response |};
     unsafe_number_message := sample_unsafe_number_message |}.

(** A world with the given table, an empty log and the given schedules. *)
Definition world (t : gmap (string * string) item)
    (ddb sqs sns : list (option thrown)) (times : list Z) : World :=
  {| table := t; log := []; ddb_faults := ddb; sqs_faults := sqs;
     sns_faults := sns; clock := times |}.

(** Nothing stored, every service answering. *)
Definition fresh_world (times : list Z) : World := world ∅ [] [] [] times.

Definition post_cities (b : string) : APIGatewayProxyEvent :=
  {| httpMethod := "POST"; path := "/cities"; body := Some b |}.

Definition get_status (cityId : string) : APIGatewayProxyEvent :=
  {| httpMethod := "GET"; path := "/status/" +:+ cityId; body := None |}.

Definition service_unavailable : thrown :=
  ErrorObj "ServiceUnavailable" "Service Unavailable".

(** ** lambda/src/index.ts

    The REST stub that ships beside the pipeline: a health check and a
    users resource answered from constants.  It has its own [handler] and
    its own copy of [createResponse], the same as the one above. *)

(** [o?.k] *)
Definition optional_field (k : string) (o : value) : value :=
  match o with
  | VUndef | VNull => VUndef
  | _ => field k o
  end.

(** [{ ...base, ...fields }]: the properties of [fields] assigned onto
    [base], in order. *)
Definition assign (base fields : list (string * value)) : list (string * value) :=
  fold_left (fun o kv => set_field (fst kv) (snd kv) o) fields base.

Module Index.

Record Event : Type := {
  httpMethod : string;
  path : string;
  pathParameters : value;
  queryStringParameters : value;
  body : option string;
}.

(** [body ? JSON.parse(body) : {}] *)
Definition parse_or_empty (body : option string) : M value :=
  match body with
  | None | Some "" => ret (VObj [])
  | Some b => json_parse b
  end.

Definition listed_users : value :=
  VArr [VObj [("id", VStr "1"); ("name", VStr "John Doe");
              ("email", VStr "john@example.com")];
        VObj [("id", VStr "2"); ("name", VStr "Jane Smith");
              ("email", VStr "jane@example.com")]].

(** The fields every success body starts with. *)
Definition envelope (message timestamp path method : string)
    (rest : list (string * value)) : value :=
  VObj ([("message", VStr message); ("timestamp", VStr timestamp);
         ("path", VStr path); ("method", VStr method)] ++ rest).

Definition not_found (message timestamp path method : string) : value :=
  VObj [("error", VStr "Not Found"); ("message", VStr message);
        ("timestamp", VStr timestamp); ("path", VStr path);
        ("method", VStr method)].

(** [{ id: Date.now().toString(), ...userData, createdAt: timestamp }] *)
Definition created_user (now : Z) (userData : value) (timestamp : string)
  : list (string * value) :=
  set_field "createdAt" (VStr timestamp)
    (assign [("id", VStr (pretty now))] (spread userData)).

(** [{ id: pathParameters.id, ...userData, updatedAt: timestamp }] *)
Definition updated_user (id : value) (userData : value) (timestamp : string)
  : list (string * value) :=
  set_field "updatedAt" (VStr timestamp)
    (assign [("id", id)] (spread userData)).

Definition handleUsersEndpoint (httpMethod path : string)
    (pathParameters queryStringParameters : value) (body : option string)
    (timestamp : string) : M APIGatewayProxyResult :=
  (* GET /api/v1/users - List users *)
  if String.eqb httpMethod "GET" && String.eqb path "/api/v1/users" then
    createResponse 200
      (envelope "Users retrieved successfully" timestamp path httpMethod
         [("users", listed_users); ("total", VNum 2)])
  (* POST /api/v1/users - Create user *)
  else if String.eqb httpMethod "POST" && String.eqb path "/api/v1/users" then
    userData <- parse_or_empty body ;;
    now <- Date_now ;;
    createResponse 201
      (envelope "User created successfully" timestamp path httpMethod
         [("user", VObj (created_user now userData timestamp))])
  (* GET /api/v1/users/{id} - Get specific user *)
  else if String.eqb httpMethod "GET"
          && truthy (optional_field "id" pathParameters) then
    createResponse 200
      (envelope "User retrieved successfully" timestamp path httpMethod
         [("user", VObj [("id", field "id" pathParameters);
                         ("name", VStr "John Doe");
                         ("email", VStr "john@example.com");
                         ("createdAt", VStr "2024-01-01T00:00:00.000Z")])])
  (* PUT /api/v1/users/{id} - Update user *)
  else if String.eqb httpMethod "PUT"
          && truthy (optional_field "id" pathParameters) then
    userData <- parse_or_empty body ;;
    createResponse 200
      (envelope "User updated successfully" timestamp path httpMethod
         [("user", VObj (updated_user (field "id" pathParameters) userData
                           timestamp))])
  (* DELETE /api/v1/users/{id} - Delete user *)
  else if String.eqb httpMethod "DELETE"
          && truthy (optional_field "id" pathParameters) then
    createResponse 200
      (envelope "User deleted successfully" timestamp path httpMethod
         [("deletedUserId", field "id" pathParameters)])
  else
    createResponse 405
      (VObj [("error", VStr "Method Not Allowed");
             ("message", VStr ("Method " +:+ httpMethod +:+ " not allowed for "
                               +:+ path));
             ("timestamp", VStr timestamp); ("path", VStr path);
             ("method", VStr httpMethod)]).

Definition handleApiV1 (httpMethod path : string)
    (pathParameters queryStringParameters : value) (body : option string)
    (timestamp : string) : M APIGatewayProxyResult :=
  (* Users endpoints *)
  if startsWith "/api/v1/users" path then
    handleUsersEndpoint httpMethod path pathParameters queryStringParameters
      body timestamp
  else
    createResponse 404
      (not_found ("API endpoint " +:+ path +:+ " not found") timestamp path
         httpMethod).

Definition handler (event : Event) : M APIGatewayProxyResult :=
  try_catch
    (timestamp <- now_iso ;;
     (* Health check endpoint *)
     if String.eqb (path event) "/health" && String.eqb (httpMethod event) "GET"
     then
       rt <- runtime ;;
       env <- getenv NODE_ENV ;;
       createResponse 200
         (envelope "Service is healthy" timestamp (path event)
            (httpMethod event)
            [("status", VStr "OK"); ("uptime", VNum (process_uptime rt));
             ("environment", VStr (or_default env "development"))])
     (* API v1 endpoints *)
     else if startsWith "/api/v1" (path event) then
       handleApiV1 (httpMethod event) (path event) (pathParameters event)
         (queryStringParameters event) (body event) timestamp
     (* Default response for unknown paths *)
     else
       createResponse 404
         (not_found ("Path " +:+ path event +:+ " not found") timestamp
            (path event) (httpMethod event)))
    (fun error =>
       ts <- now_iso ;;
       createResponse 500
         (error_body "Internal Server Error" "An unexpected error occurred" ts)).

End Index.

(** ** lib/learnify-health-backend-stack.ts: the environments

    The names each function's [environment] block defines in the CDK
    stack; [process.env] of a deployed function holds nothing else of the
    pipeline's configuration. *)

Definition city_processor_environment : list string :=
  [CITY_QUEUE_URL; WEATHER_QUEUE_URL; TABLE_NAME; NOTIFICATION_TOPIC_ARN].

Definition weather_processor_environment : list string :=
  [CITY_QUEUE_URL; TABLE_NAME; NOTIFICATION_TOPIC_ARN; OPENWEATHER_API_KEY].

Definition llm_processor_environment : list string :=
  [TABLE_NAME; NOTIFICATION_TOPIC_ARN; OPENAI_API_KEY].

(** The value the stack gives [OPENAI_API_KEY]. *)
Definition deployed_openai_key : string := "YOUR_OPENAI_API_KEY".

(** ** Vocabulary of the properties *)

(** A create request the intake accepts: a non-empty body that decodes to
    an object whose [cityName] is the non-empty string [name] and whose
    [countryCode] is [countryCode]. *)
Definition valid_request (rt : Runtime) (b name : string) (countryCode : value)
  : Prop :=
  b <> "" /\ name <> "" /\
  exists fs, JSON_parse rt b = inr (VObj fs) /\
             assoc "cityName" fs = Some (VStr name) /\
             assoc "countryCode" fs = Some countryCode /\
             has_undefined countryCode = false.

(** A value [marshall] converts: it holds no [undefined] and no number
    outside the safe integers. *)
Definition storable (v : value) : Prop := refused v = None.

(** [null] and [undefined], whose properties cannot be read. *)
Definition is_nullish (v : value) : bool :=
  match v with
  | VUndef | VNull => true
  | _ => false
  end.

(** The request bodies that carry no city name: no body, an empty body, or
    a body that decodes to a value other than [null] whose [cityName] is
    missing or falsy (the empty string, [null], [false], [0]). *)
Definition lacks_cityName (rt : Runtime) (body : option string) : Prop :=
  body = None \/ body = Some "" \/
  exists b v, body = Some b /\ JSON_parse rt b = inr v /\
    is_nullish v = false /\ truthy (field "cityName" v) = false.

(** What a valid request makes the intake do up to the notification: the
    pending record is stored under ([cityId], [timestamp]) and then sent to
    the city queue. *)
Definition after_enqueue (rt : Runtime) (w : World) (cityId : string)
    (name : string) (countryCode : value) (timestamp : string) : World :=
  let rec := pending_record cityId (VStr name) countryCode timestamp in
  {| table := <[(cityId, timestamp) := rec]> (table w);
     log := (log w ++ [PutItem rec]) ++
            [SendMessage (process_env rt CITY_QUEUE_URL)
               (JSON_stringify rt (VObj rec))
               [("cityId", VStr cityId); ("cityName", VStr name)]];
     ddb_faults := tl (ddb_faults w);
     sqs_faults := tl (sqs_faults w);
     sns_faults := tl (sns_faults w);
     clock := tl (clock w) |}.

(** The store refuses the next request. *)
Definition lookup_fails (w : World) : Prop :=
  exists e, hd None (ddb_faults w) = Some e.

(** A computation that leaves the world as it found it. *)
Definition reads_only {A} (c : M A) : Prop := forall rt w, snd (c rt w) = w.



(** What an invocation appended to the log. *)
Definition appended (w w' : World) (new : list effect) : Prop :=
  log w' = (log w ++ new)%list.




(** In the sequence of effects [l], every message sent to a queue is the
    JSON text of a record that an earlier [PutItem] of the sequence stored;
    [stored] lists the records put so far. *)
Fixpoint sends_follow_puts (rt : Runtime) (stored : list item)
    (l : list effect) : Prop :=
  match l with
  | [] => True
  | PutItem it :: r => sends_follow_puts rt (it :: stored) r
  | SendMessage _ m _ :: r =>
      (exists it, In it stored /\ m = JSON_stringify rt (VObj it))
      /\ sends_follow_puts rt stored r
  | _ :: r => sends_follow_puts rt stored r
  end.

(** Every record put by the effects [new] is in the table [t] under its
    own key. *)
Definition puts_stored (t : gmap (string * string) item) (new : list effect)
  : Prop :=
  forall it, In (PutItem it) new ->
             exists k, item_key it = Some k /\ t !! k = Some it.

(** The item has a [weatherData] attribute. *)
Definition carries_weather (it : item) : Prop :=
  is_Some (assoc "weatherData" it).

(** The item's [status] attribute is the string [s]. *)
Definition has_status (s : string) (it : item) : Prop :=
  assoc "status" it = Some (VStr s).

(** An entry that carries weather data does not sit under the ["latest"]
    sort key and has status [weather_processing] or [completed]. *)
Definition good_entry (k : string * string) (it : item) : Prop :=
  carries_weather it ->
  k.2 <> "latest"
  /\ (has_status "weather_processing" it \/ has_status "completed" it).

(** Every entry of the table is good. *)
Definition good_table (t : gmap (string * string) item) : Prop :=
  forall k it, t !! k = Some it -> good_entry k it.

(** A computation that keeps the table good. *)
Definition preserves {A} (c : M A) : Prop :=
  forall rt w, good_table (table w) -> good_table (table (snd (c rt w))).

(** A computation that does not write the table. *)
Definition table_unchanged {A} (c : M A) : Prop :=
  forall rt w, table (snd (c rt w)) = table w.

(** One invocation of one of the three Lambda functions. *)
Inductive invocation : Type :=
  | Http (event : APIGatewayProxyEvent)
  | Enrichment (records : list SQSRecord)
  | Description (records : list SQSRecord).

Definition invoke (i : invocation) : M unit :=
  match i with
  | Http event => _ <- handler event ;; ret tt
  | Enrichment records => weather_handler records
  | Description records => llm_handler records
  end.

(** The tables the pipeline can produce: starting from the empty table,
    any number of invocations, each with any input, in any runtime and
    under any fault schedules and clock. *)
Inductive reachable : gmap (string * string) item -> Prop :=
  | reachable_empty : reachable ∅
  | reachable_invoke (i : invocation) (rt : Runtime) (w : World) :
      reachable (table w) -> reachable (table (snd (invoke i rt w))).

(** The text [generateWeatherDescription] returns for the decoded
    message [pd]. *)
Definition fake_description (rt : Runtime) (pd : value) : string :=
  "Fake description for " +:+ shown rt (field "cityName" pd)
  +:+ char_str (ascii_of_nat 10).

(** ** Sample inputs of the properties *)


(** The Queue A message of the London job, as delivered to enrichment. *)
Definition london_record : SQSRecord :=
  {| record_body := london_message; receiptHandle := "receipt-1" |}.

(** The Queue B message of the London job, as delivered to description. *)
Definition london_enriched_record : SQSRecord :=
  {| record_body := london_enriched_message; receiptHandle := "receipt-2" |}.

Definition enrichment_times : list Z :=
  [london_time + 500; london_time + 1000; london_time + 1000].

(** The table after a successful enrichment of the London job. *)
Definition table_after_enrichment : gmap (string * string) item :=
  table (snd (invoke (Enrichment [london_record]) (sample_runtime true true)
                (fresh_world enrichment_times))).

Definition description_times : list Z :=
  [london_time + 1500; london_time + 2000; london_time + 2000].

Definition description_timestamp : string := "2024-01-01T12:00:02.000Z".




(** ** Vocabulary of the further properties *)

(** The part of a string before its first slash. *)
Fixpoint before_slash (s : string) : string :=
  match s with
  | "" => ""
  | String c r => if Ascii.eqb c "/" then "" else String c (before_slash r)
  end.

(** An upper-case letter among the characters U+0000 to U+00FF: A to Z,
    and U+00C0 to U+00DE without the multiplication sign U+00D7. *)
Definition is_upper (c : ascii) : bool :=
  let n := nat_of_ascii c in
  ((65 <=? n)%nat && (n <=? 90)%nat)
  || ((192 <=? n)%nat && (n <=? 214)%nat)
  || ((216 <=? n)%nat && (n <=? 222)%nat).

(** The same character, or the same letter in its two cases: among the
    characters U+0000 to U+00FF the lower-case form of an upper-case
    letter sits 32 places after it. *)
Definition same_letter (a b : ascii) : Prop :=
  a = b
  \/ (is_upper a = true /\ nat_of_ascii b = (nat_of_ascii a + 32)%nat)
  \/ (is_upper b = true /\ nat_of_ascii a = (nat_of_ascii b + 32)%nat).

(** Two strings that differ only in the case of their letters. *)
Inductive case_variant : string -> string -> Prop :=
  | case_variant_empty : case_variant "" ""
  | case_variant_letter (a b : ascii) (s t : string) :
      same_letter a b -> case_variant s t ->
      case_variant (String a s) (String b t).

(** No code unit of the string satisfies [p]. *)
Fixpoint free_of (p : ascii -> bool) (s : string) : bool :=
  match s with
  | "" => true
  | String c r => negb (p c) && free_of p r
  end.

(** The world after one reading of the clock. *)
Definition after_clock_read (w : World) : World :=
  {| table := table w; log := log w; ddb_faults := ddb_faults w;
     sqs_faults := sqs_faults w; sns_faults := sns_faults w;
     clock := tl (clock w) |}.

(** A POST to [/cities]. *)
Definition is_create (event : APIGatewayProxyEvent) : bool :=
  String.eqb (path event) "/cities" && String.eqb (httpMethod event) "POST".

(** A GET on [/health] or under [/status/], which the handler routes
    before it looks for a create request. *)
Definition is_read (event : APIGatewayProxyEvent) : bool :=
  String.eqb (httpMethod event) "GET"
  && (String.eqb (path event) "/health" || startsWith "/status/" (path event)).

(** Every entry of the table satisfies [P]. *)
Definition all_entries (P : string * string -> item -> Prop)
    (t : gmap (string * string) item) : Prop :=
  forall k it, t !! k = Some it -> P k it.

(** A computation that keeps [P] true of every entry. *)
Definition keeps (P : string * string -> item -> Prop) {A} (c : M A) : Prop :=
  forall rt w, all_entries P (table w) -> all_entries P (table (snd (c rt w))).

(** The item's [status] is one of the listed strings. *)
Definition status_among (statuses : list string) (it : item) : Prop :=
  exists s, has_status s it /\ In s statuses.

(** The statuses of the records the three stages put. *)
Definition put_statuses : list string :=
  ["pending"; "weather_processing"; "completed"].

(** The shape of an entry: its sort key is not ["latest"], it sits under
    the key its own attributes give, and it has one of the put
    statuses. *)
Definition entry_shape (k : string * string) (it : item) : Prop :=
  k.2 <> "latest"
  /\ item_key it = Some k
  /\ status_among put_statuses it.



(** The query string [fetchWeatherData] builds. *)
Definition weather_location (rt : Runtime) (cityName countryCode : value)
  : string :=
  if truthy countryCode
  then shown rt cityName +:+ "," +:+ shown rt countryCode
  else shown rt cityName.

Definition weather_url (rt : Runtime) (cityName countryCode : value)
    (apiKey : string) : string :=
  "https://api.openweathermap.org/data/2.5/weather?q="
  +:+ encodeURIComponent rt (weather_location rt cityName countryCode)
  +:+ "&appid=" +:+ apiKey +:+ "&units=metric".

(** A response body of the shape of [OpenWeatherResponse]. *)
Definition observation (temp humidity pressure : value) (weather : list value)
    (speed visibility : value) (sunrise sunset : Q) : value :=
  VObj [("main", VObj [("temp", temp); ("humidity", humidity);
                       ("pressure", pressure)]);
        ("weather", VArr weather);
        ("wind", VObj [("speed", speed)]);
        ("visibility", visibility);
        ("sys", VObj [("sunrise", VNum sunrise); ("sunset", VNum sunset)])].

(** A world that holds the table left by the enrichment of the London
    job. *)
Definition world_after_enrichment : World :=
  world table_after_enrichment [] [] [] [london_time + 3000].



(** The [n]-th coming reading of the clock. *)
Definition reading (n : nat) (w : World) : string :=
  iso_of_time (hd 0 (Nat.iter n (@tl Z) (clock w))).

(** Whatever the computation appends to the log satisfies [Q]. *)
Definition emits {A} (Q : Runtime -> effect -> Prop) (c : M A) : Prop :=
  forall rt w, exists new,
    appended w (snd (c rt w)) new /\ Forall (Q rt) new.

(** The effects of the intake function: what it puts, sends and
    publishes. *)
Definition city_effect (rt : Runtime) (e : effect) : Prop :=
  match e with
  | PutItem it => has_status "pending" it
  | SendMessage queueUrl _ _ => queueUrl = process_env rt CITY_QUEUE_URL
  | Publish topicArn subject _ =>
      topicArn = process_env rt NOTIFICATION_TOPIC_ARN
      /\ subject = "City Processing Started"
  | UpdateItem _ _ | DeleteMessage _ _ => False
  end.

(** The requests the enrichment function makes. *)
Definition weather_effect (rt : Runtime) (e : effect) : Prop :=
  match e with
  | UpdateItem k sets =>
      k.2 = "latest"
      /\ (assoc "status" sets = Some (VStr "weather_processing")
          \/ assoc "status" sets = Some (VStr "failed"))
  | PutItem it => has_status "weather_processing" it
  | SendMessage queueUrl _ _ => queueUrl = process_env rt LLM_QUEUE_URL
  | Publish topicArn subject _ =>
      topicArn = process_env rt NOTIFICATION_TOPIC_ARN
      /\ In subject ["Weather Data Retrieved"; "Weather Processing Failed"]
  | DeleteMessage queueUrl _ => queueUrl = process_env rt WEATHER_QUEUE_URL
  end.

(** The requests the description function makes. *)
Definition llm_effect (rt : Runtime) (e : effect) : Prop :=
  match e with
  | UpdateItem k sets =>
      k.2 = "latest"
      /\ (assoc "status" sets = Some (VStr "llm_processing")
          \/ assoc "status" sets = Some (VStr "failed"))
  | PutItem it => has_status "completed" it
  | SendMessage _ _ _ => False
  | Publish topicArn subject _ =>
      topicArn = process_env rt NOTIFICATION_TOPIC_ARN
      /\ In subject ["Weather Processing Completed"; "LLM Processing Failed"]
  | DeleteMessage queueUrl _ => queueUrl = process_env rt LLM_QUEUE_URL
  end.

(** The runtime's environment defines none of the pipeline's names outside
    [names]. *)
Definition defines_only (names : list string) (rt : Runtime) : Prop :=
  forall name, ~ In name names -> process_env rt name = None.

(** A queue request that names no queue. *)
Definition names_no_queue (e : effect) : Prop :=
  match e with
  | SendMessage queueUrl _ _ | DeleteMessage queueUrl _ => queueUrl = None
  | _ => True
  end.

(** The sample runtime with the environment of a deployed function: the
    listed names are defined, no other is. *)
Definition deployed_runtime (names : list string) : Runtime :=
  {| JSON_parse := JSON_parse (sample_runtime true true);
     JSON_stringify := JSON_stringify (sample_runtime true true);
     encodeURIComponent := encodeURIComponent (sample_runtime true true);
     String_of := String_of (sample_runtime true true);
     Number_of := Number_of (sample_runtime true true);
     process_env := fun name =>
       if existsb (String.eqb name) names then Some ("value-of-" +:+ name)
       else None;
     process_uptime := process_uptime (sample_runtime true true);
     fetch := fetch (sample_runtime true true);
     unsafe_number_message :=
       unsafe_number_message (sample_runtime true true) |}.

(** Two messages no consumer can work on: the JSON text [null] and a text
    that is not JSON. *)
Definition unusable_records : list SQSRecord :=
  [{| record_body := "null"; receiptHandle := "receipt-3" |};
   {| record_body := "{"; receiptHandle := "receipt-4" |}].

(** A create request of the users resource that supplies its own [id] and
    [createdAt], and a runtime that decodes it. *)
Definition user_request_value : value :=
  VObj [("id", VStr "42"); ("name", VStr "Ada");
        ("createdAt", VStr "yesterday")].

Definition user_request : string := sample_stringify user_request_value.

Definition users_runtime : Runtime :=
  {| JSON_parse := lookup_doc [(user_request, user_request_value)];
     JSON_stringify := sample_stringify;
     encodeURIComponent := fun s => s;
     String_of := fun _ => "[object Object]";
     Number_of := fun _ => None;
     process_env := fun _ => None;
     process_uptime := 0;
     fetch := fun _ => inl service_unavailable;
     unsafe_number_message := sample_unsafe_number_message |}.

Definition post_users (b : string) : Index.Event :=
  {| Index.httpMethod := "POST"; Index.path := "/api/v1/users";
     Index.pathParameters := VNull; Index.queryStringParameters := VNull;
     Index.body := Some b |}.

(** * Properties *)

(** ** Strings and dates, on examples *)

Example toISOString_2024 :
  toISOString 1704110400000 = Some "2024-01-01T12:00:00.000Z".
Proof. vm_compute. reflexivity. Qed.

Example toISOString_leap :
  toISOString 951782400123 = Some "2000-02-29T00:00:00.123Z".
Proof. vm_compute. reflexivity. Qed.

Example toISOString_before_epoch :
  toISOString (-1) = Some "1969-12-31T23:59:59.999Z".
Proof. vm_compute. reflexivity. Qed.

Example slug_new_york :
  replace_spaces false (toLowerCase "New  York") +:+ "-" +:+ pretty 1703123456789
  = "new-york-1703123456789".
Proof. vm_compute. reflexivity. Qed.

(** The name [Évora], whose first character is U+00C9. *)
Example toLowerCase_evora :
  toLowerCase (String (ascii_of_nat 201) "vora")
  = String (ascii_of_nat 233) "vora".
Proof. vm_compute. reflexivity. Qed.

(** One tenth, and the integers around 2^53. *)
Example binary64_tenth :
  binary64 (1 # 10) = Some (3602879701896397 # 36028797018963968).
Proof. vm_compute. reflexivity. Qed.

Example binary64_ties_to_even :
  binary64 9007199254740993 = Some 9007199254740992%Q
  /\ binary64 9007199254740995 = Some 9007199254740996%Q.
Proof. split; vm_compute; reflexivity. Qed.

Example binary64_overflow :
  binary64 (inject_Z (2 ^ 1024 - 2 ^ 970)) = None
  /\ binary64 (inject_Z (2 ^ 1024 - 2 ^ 970 - 1))
     = Some (inject_Z (2 ^ 1024 - 2 ^ 971)).
Proof. split; vm_compute; reflexivity. Qed.

(** An instant with a fraction of a second: the product with 1000 is the
    whole millisecond count, where the exact product of the binary64
    value lies just below it. *)
Example sunrise_with_milliseconds :
  exists seconds,
    binary64 (1704096900001 # 1000) = Some seconds
    /\ option_map time_of_number (times seconds 1000) = Some 1704096900001
    /\ time_of_number (seconds * 1000) = 1704096900000.
Proof. eexists. repeat split; vm_compute; reflexivity. Qed.

Example split_status :
  split_slash "" "/status/london-17" = [""; "status"; "london-17"].
Proof. vm_compute. reflexivity. Qed.

(** ** An ISO timestamp is never the sort key ["latest"] *)

Lemma length_append (s1 s2 : string) :
  String.length (s1 +:+ s2) = (String.length s1 + String.length s2)%nat.
Proof. induction s1 as [|c s1 IH]; simpl; [reflexivity|]. now rewrite IH. Qed.

Lemma length_pad w n : String.length (pad w n) = w.
Proof.
  revert n. induction w as [|w IH]; intros n; simpl; [reflexivity|].
  rewrite length_append, IH. simpl. lia.
Qed.

Lemma iso_of_time_length t : (24 <= String.length (iso_of_time t))%nat.
Proof.
  unfold iso_of_time. destruct (civil_from_days _) as [[y m] d].
  rewrite !length_append, !length_pad. simpl.
  unfold year_str. destruct (_ && _); [|destruct (_ <? _)];
    rewrite ?length_append, length_pad; simpl; lia.
Qed.

Lemma iso_of_time_not_latest t : iso_of_time t <> "latest".
Proof.
  intros H. pose proof (iso_of_time_length t) as L. rewrite H in L.
  simpl in L. lia.
Qed.

(** ** Running handler code *)

Create HintDb handler_code.
#[local] Hint Unfold bind try_catch ret throw runtime getenv lift_result
  json_parse json_stringify createResponse record_effect write_table
  read_table ddb_call sqs_call sns_call Date_now now_iso dynamodb_put
  dynamodb_get dynamodb_update sqs_send sqs_delete sns_publish
  : handler_code.

#[local] Arguments make_cityId : simpl never.
#[local] Arguments iso_of_time : simpl never.
#[local] Arguments pending_record : simpl never.
#[local] Arguments enriched_record : simpl never.
#[local] Arguments completed_record : simpl never.
#[local] Arguments accepted_body : simpl never.
#[local] Arguments error_body : simpl never.
#[local] Arguments status_body : simpl never.
#[local] Arguments failure_note : simpl never.
#[local] Arguments String.append : simpl never.
#[local] Arguments item_key : simpl never.
#[local] Arguments latest_key : simpl never.
#[local] Arguments status_sets : simpl never.
#[local] Arguments apply_sets : simpl never.

(** Unfold the monad and the clients, then compute on the world. *)
Ltac exec := repeat (progress autounfold with handler_code in * ); cbn in *.

Lemma eqb_nonempty (s : string) : s <> "" -> String.eqb s "" = false.
Proof. intros H. now apply String.eqb_neq. Qed.

Lemma item_key_pending cityId cityName countryCode timestamp :
  item_key (pending_record cityId cityName countryCode timestamp)
  = Some (cityId, timestamp).
Proof. reflexivity. Qed.

Lemma item_key_latest (c : string) :
  item_key (latest_key (VStr c)) = Some (c, "latest").
Proof. reflexivity. Qed.

Lemma item_key_latest_inv cityId k :
  item_key (latest_key cityId) = Some k ->
  exists c, cityId = VStr c /\ k = (c, "latest").
Proof.
  unfold item_key, latest_key. cbn.
  destruct cityId; try discriminate. intros [= <-]. eauto.
Qed.

Lemma marshall_storable (data : list (string * value)) rt w :
  first_some (fun kv => refused (snd kv)) data = None ->
  marshall data rt w = (Returned data, w).
Proof. intros H. unfold marshall. now rewrite H. Qed.

(** [marshall] returns its argument or throws, and leaves the world
    alone. *)
Lemma marshall_outcome (data : list (string * value)) rt w :
  marshall data rt w = (Returned data, w)
  \/ exists e, marshall data rt w = (Threw e, w).
Proof.
  unfold marshall.
  destruct (first_some _ data) as [[|q]|]; [right|right|left];
    try eexists; reflexivity.
Qed.


Lemma prop_defined o k :
  is_nullish o = false -> prop o k = ret (field k o).
Proof. destruct o; (discriminate || reflexivity). Qed.

Lemma prop_nullish o k rt w :
  is_nullish o = true -> exists e, prop o k rt w = (Threw e, w).
Proof. destruct o; try discriminate; intros _; eexists; reflexivity. Qed.

Lemma marshall_latest_key (c : string) rt w :
  marshall (latest_key (VStr c)) rt w = (Returned (latest_key (VStr c)), w).
Proof. reflexivity. Qed.

(** ** Intake: [processCityRequest] *)

(** C8 (as amended). A create request without a city name (no body, an
    empty body, or a body that decodes to a value other than [null] whose
    [cityName] is missing, empty or otherwise falsy) is answered 400 and
    leaves the world as it was: nothing is stored, enqueued or
    published. *)
Theorem C8_missing_cityName_is_400_without_effects
    (rt : Runtime) (w : World) (body : option string) (timestamp : string) :
  lacks_cityName rt body ->
  exists r, processCityRequest body timestamp rt w = (Returned r, w)
            /\ statusCode r = 400.
Proof.
  intros [-> | [-> | (b & v & -> & Hparse & Hnn & Hname)]].
  - eexists. split; reflexivity.
  - eexists. split; reflexivity.
  - unfold processCityRequest. destruct b as [|c b].
    + eexists. split; reflexivity.
    + exec. rewrite Hparse. exec. rewrite (prop_defined _ _ Hnn). exec.
      rewrite Hname. exec. eexists. split; reflexivity.
Qed.

(** C10. A create request whose body is present but does not decode is
    answered 500, and the world is left as it was. *)
Theorem C10_undecodable_body_is_500_without_effects
    (rt : Runtime) (w : World) (b timestamp : string) (e : thrown) :
  b <> "" ->
  JSON_parse rt b = inl e ->
  exists r, processCityRequest (Some b) timestamp rt w = (Returned r, w)
            /\ statusCode r = 500
            /\ response_body r =
                 JSON_stringify rt
                   (error_body "Internal Server Error"
                      "Failed to process city request" timestamp).
Proof.
  intros Hb Hparse. unfold processCityRequest.
  destruct b as [|c b]; [congruence|].
  exec. rewrite Hparse. exec. eexists. repeat split.
Qed.

Lemma processCityRequest_valid rt w b name countryCode timestamp :
  valid_request rt b name countryCode ->
  storable countryCode ->
  hd None (ddb_faults w) = None ->
  hd None (sqs_faults w) = None ->
  let cityId := make_cityId name (hd 0 (clock w)) in
  let w' := after_enqueue rt w cityId name countryCode timestamp in
  processCityRequest (Some b) timestamp rt w =
    match hd None (sns_faults w) with
    | None =>
        createResponse 202 (accepted_body cityId (VStr name) timestamp) rt
          {| table := table w';
             log := log w' ++
                    [Publish (process_env rt NOTIFICATION_TOPIC_ARN)
                       "City Processing Started"
                       (JSON_stringify rt
                          (VObj [("message", VStr "City processing started");
                                 ("cityId", VStr cityId);
                                 ("cityName", VStr name);
                                 ("timestamp", VStr timestamp)]))];
             ddb_faults := ddb_faults w'; sqs_faults := sqs_faults w';
             sns_faults := sns_faults w'; clock := clock w' |}
    | Some _ =>
        createResponse 500
          (error_body "Internal Server Error" "Failed to process city request"
             timestamp) rt w'
    end.
Proof.
  intros (Hb & Hname & fs & Hparse & Hcity & Hcc & Hdef) Hst Hddb Hsqs
    cityId w'.
  unfold processCityRequest. destruct b as [|c b]; [congruence|].
  exec. rewrite Hparse. unfold prop. exec. rewrite Hcity, Hcc. exec.
  rewrite (eqb_nonempty _ Hname). exec.
  rewrite marshall_storable
    by (unfold pending_record, storable in *; cbn; now rewrite Hst).
  exec. rewrite item_key_pending, Hddb. exec. rewrite Hsqs. exec.
  destruct (hd None (sns_faults w)); reflexivity.
Qed.


(** When all three calls succeed the answer is 202 and carries the job
    identifier. *)
Lemma processCityRequest_accepted rt w b name countryCode timestamp :
  valid_request rt b name countryCode ->
  storable countryCode ->
  hd None (ddb_faults w) = None ->
  hd None (sqs_faults w) = None ->
  hd None (sns_faults w) = None ->
  exists r w',
    processCityRequest (Some b) timestamp rt w = (Returned r, w')
    /\ statusCode r = 202
    /\ response_body r =
         JSON_stringify rt
           (accepted_body (make_cityId name (hd 0 (clock w))) (VStr name)
              timestamp)
    /\ table w' =
         <[(make_cityId name (hd 0 (clock w)), timestamp) :=
             pending_record (make_cityId name (hd 0 (clock w))) (VStr name)
               countryCode timestamp]> (table w).
Proof.
  intros Hv Hst Hddb Hsqs Hsns.
  rewrite (processCityRequest_valid _ _ _ _ _ _ Hv Hst Hddb Hsqs), Hsns.
  eexists _, _. repeat split.
Qed.

Lemma sample_valid_request k1 k2 :
  valid_request (sample_runtime k1 k2) london_request "London" (VStr "GB").
Proof.
  split; [discriminate|]. split; [discriminate|].
  eexists. repeat split.
Qed.

(** ** Status queries: [getProcessingStatus] *)

(** The three outcomes of a status query, by what the store does. *)
Lemma status_query_outcomes (rt : Runtime) (w : World) (jobId : string) :
  exists r w',
    getProcessingStatus (VStr jobId) rt w = (Returned r, w')
    /\ (statusCode r = 500 <-> lookup_fails w)
    /\ (statusCode r = 404 <->
          ~ lookup_fails w /\ table w !! (jobId, "latest") = None)
    /\ (statusCode r = 200 <->
          ~ lookup_fails w /\ is_Some (table w !! (jobId, "latest"))).
Proof.
  unfold getProcessingStatus, lookup_fails.
  unfold try_catch at 1. unfold bind at 1.
  rewrite marshall_latest_key. exec. rewrite item_key_latest.
  destruct (hd None (ddb_faults w)) as [e|] eqn:Hf; exec.
  - eexists _, _. split; [reflexivity|]. cbn.
    repeat split; try discriminate; eauto.
    + intros [H _]. exfalso. eauto.
    + intros [H _]. exfalso. eauto.
  - destruct (table w !! (jobId, "latest")) as [it|] eqn:Hit; exec;
      eexists _, _; (split; [reflexivity|]); cbn.
    + repeat split; try discriminate; eauto.
      * intros [e He]. discriminate.
      * intros [_ H]. discriminate.
      * intros [e He]. discriminate.
    + repeat split; try discriminate; eauto.
      * intros [e He]. discriminate.
      * intros [e He]. discriminate.
      * intros [_ [x Hx]]. discriminate.
Qed.

(** ** Intake followed by a status query *)

(** Whatever the HTTP handler is asked, it leaves every ["latest"] entry of
    the table as it found it: the only write of this handler stores the
    pending record under its creation timestamp. *)
Lemma handler_keeps_latest_entries rt w event res w' (cityId : string) :
  handler event rt w = (res, w') ->
  table w' !! (cityId, "latest") = table w !! (cityId, "latest").
Proof.
  unfold handler, getProcessingStatus, processCityRequest, marshall, to_string,
    prop.
  exec. intros H.
  repeat match goal with
         | H : context [match ?x with _ => _ end] |- _ =>
             lazymatch x with
             | context [match _ with _ => _ end] => fail
             | _ => destruct x eqn:?
             end; exec; try discriminate
         | H : context [if ?x then _ else _] |- _ =>
             lazymatch x with
             | context [match _ with _ => _ end] => fail
             | context [if _ then _ else _] => fail
             | _ => destruct x eqn:?
             end; exec; try discriminate
         end;
    try (injection H as <- <-; cbn; try reflexivity).
  all: rewrite lookup_insert_ne; [reflexivity|].
  all: match goal with
       | K : item_key _ = Some _ |- _ =>
           rewrite item_key_pending in K; injection K as <-
       end.
  all: intros [=]; eapply iso_of_time_not_latest; eauto.
Qed.

(** A status query that follows an accepted create request, with no other
    activity in between, answers 404 whenever the job had no ["latest"]
    entry before the request and the store answers the lookup: the record
    intake wrote sits under another sort key. *)
Lemma status_after_intake_is_not_found rt w b accepted w1 (cityId : string) :
  handler (post_cities b) rt w = (Returned accepted, w1) ->
  table w !! (cityId, "latest") = None ->
  hd None (ddb_faults w1) = None ->
  exists r w2,
    getProcessingStatus (VStr cityId) rt w1 = (Returned r, w2)
    /\ statusCode r = 404.
Proof.
  intros Hpost Hfresh Hddb.
  pose proof (handler_keeps_latest_entries _ _ _ _ _ cityId Hpost) as Hsame.
  rewrite Hfresh in Hsame.
  destruct (status_query_outcomes rt w1 cityId)
    as (r & w2 & Hrun & _ & H404 & _).
  exists r, w2. split; [exact Hrun|]. apply H404. split; [|exact Hsame].
  intros [e He]. congruence.
Qed.

(** C1. On the sample runtime, in a world with nothing stored and every
    service answering, the London create request is answered 202 with job
    identifier [london-1704110400000] and its pending record is stored;
    the status query for that identifier, issued right after, is answered
    404 and not 200 with the pending record. *)
Theorem C1_status_query_misses_the_intake_record :
  exists accepted w1 answer w2,
    handler (post_cities london_request) (sample_runtime true true)
      (fresh_world [london_time; london_time]) = (Returned accepted, w1)
    /\ statusCode accepted = 202
    /\ response_body accepted =
         sample_stringify
           (accepted_body london_id (VStr "London") london_timestamp)
    /\ table w1 !! (london_id, london_timestamp) =
         Some (pending_record london_id (VStr "London") (VStr "GB")
                 london_timestamp)
    /\ handler (get_status london_id) (sample_runtime true true) w1 =
         (Returned answer, w2)
    /\ statusCode answer = 404.
Proof.
  eexists _, _, _, _.
  split; [vm_compute; reflexivity|].
  split; [reflexivity|].
  split; [vm_compute; reflexivity|].
  split; [vm_compute; reflexivity|].
  split; [vm_compute; reflexivity|].
  reflexivity.
Qed.

(** C9. On the sample runtime, after the London create request has been
    accepted, a record exists for the job identifier
    [london-1704110400000] and the store answers the lookup; the status
    query for that identifier is nevertheless answered 404, with the text
    that no processing data was found.  (When the lookup itself fails, the
    answer is 500.) *)
Theorem C9_stored_job_is_reported_not_found :
  exists accepted w1 answer w2,
    handler (post_cities london_request) (sample_runtime true true)
      (fresh_world [london_time; london_time; london_time + 60000])
    = (Returned accepted, w1)
    /\ statusCode accepted = 202
    /\ (exists timestamp it,
          table w1 !! (london_id, timestamp) = Some it
          /\ assoc "cityId" it = Some (VStr london_id))
    /\ ~ lookup_fails w1
    /\ getProcessingStatus (VStr london_id) (sample_runtime true true) w1
       = (Returned answer, w2)
    /\ statusCode answer = 404
    /\ response_body answer =
         sample_stringify
           (error_body "Not Found"
              ("No processing data found for city ID: " +:+ london_id)
              "2024-01-01T12:01:00.000Z")
    /\ forall w, lookup_fails w ->
         exists failed w',
           getProcessingStatus (VStr london_id) (sample_runtime true true) w
           = (Returned failed, w')
           /\ statusCode failed = 500.
Proof.
  eexists _, _, _, _.
  split; [vm_compute; reflexivity|].
  split; [reflexivity|].
  split; [exists london_timestamp; eexists; split; vm_compute; reflexivity|].
  split; [intros [e He]; discriminate He|].
  split; [vm_compute; reflexivity|].
  split; [reflexivity|].
  split; [vm_compute; reflexivity|].
  intros w Hw.
  destruct (status_query_outcomes (sample_runtime true true) w london_id)
    as (r & w' & Hrun & H500 & _).
  exists r, w'. split; [exact Hrun|]. now apply H500.
Qed.

(** A create request that names no country is answered 500: [marshall]
    refuses the [undefined] country code of the pending record, so nothing
    is stored and nothing is sent. *)
Example intake_without_country_is_500 :
  exists r,
    handler (post_cities paris_request) (sample_runtime true true)
      (fresh_world [london_time; london_time])
    = (Returned r, fresh_world []) /\ statusCode r = 500.
Proof. eexists. split; [vm_compute; reflexivity|reflexivity]. Qed.

(** A create request whose country code is a number [marshall] refuses is
    answered 500 as well, with nothing stored and nothing sent, whatever
    the services would have answered. *)
Lemma intake_unstorable_countryCode_is_500
    rt w b name countryCode timestamp r :
  valid_request rt b name countryCode ->
  refused countryCode = Some r ->
  exists res w',
    processCityRequest (Some b) timestamp rt w = (Returned res, w')
    /\ statusCode res = 500 /\ table w' = table w /\ log w' = log w.
Proof.
  intros (Hb & Hname & fs & Hparse & Hcity & Hcc & Hdef) Hr.
  unfold processCityRequest. destruct b as [|c b]; [congruence|].
  exec. rewrite Hparse. unfold prop. exec. rewrite Hcity, Hcc. exec.
  rewrite (eqb_nonempty _ Hname). exec.
  unfold marshall, pending_record. cbn. rewrite Hr.
  destruct r; exec; eexists _, _; (split; [reflexivity|]); cbn; auto.
Qed.

Example unsafe_countryCode_is_refused :
  refused (VNum 9007199254740992) = Some (RefusedNumber 9007199254740992)
  /\ refused (VNum 9007199254740991) = None.
Proof. split; reflexivity. Qed.

(** A body that decodes to [null] is no request object: reading its
    [cityName] throws and the answer is 500, with nothing done. *)
Example null_request_is_500 :
  exists r,
    processCityRequest (Some "null") london_timestamp
      (sample_runtime true true) (fresh_world [london_time])
    = (Returned r, fresh_world [london_time]) /\ statusCode r = 500.
Proof. eexists. split; [vm_compute; reflexivity|reflexivity]. Qed.

(** C8, counterexample. The body [null] carries no city name, and the
    answer is 500, not 400: reading [cityName] of [null] throws inside the
    [try] block.  Nothing is stored, enqueued or published. *)
Lemma C8_null_body_counterexample :
  exists r,
    processCityRequest (Some "null") london_timestamp
      (sample_runtime true true) (fresh_world [london_time])
    = (Returned r, fresh_world [london_time])
    /\ JSON_parse (sample_runtime true true) "null" = inr VNull
    /\ statusCode r = 500
    /\ statusCode r <> 400.
Proof.
  eexists. split; [vm_compute; reflexivity|].
  split; [reflexivity|]. split; [reflexivity|discriminate].
Qed.



(** C8 on a request whose [cityName] is the empty string. *)
Lemma C8_missing_cityName_witness :
  exists r,
    processCityRequest (Some empty_name_request) london_timestamp
      (sample_runtime true true) (fresh_world [london_time])
    = (Returned r, fresh_world [london_time])
    /\ statusCode r = 400.
Proof.
  apply (C8_missing_cityName_is_400_without_effects (sample_runtime true true)
           (fresh_world [london_time]) (Some empty_name_request)
           london_timestamp).
  right. right.
  exists empty_name_request, (VObj [("cityName", VStr "")]).
  split; [reflexivity|]. split; [reflexivity|].
  split; reflexivity.
Defined.

(** C10 on a truncated body. *)
Lemma C10_undecodable_body_witness :
  exists r,
    processCityRequest (Some "{cityName:") london_timestamp
      (sample_runtime true true) (fresh_world [london_time])
    = (Returned r, fresh_world [london_time])
    /\ statusCode r = 500
    /\ response_body r =
         JSON_stringify (sample_runtime true true)
           (error_body "Internal Server Error"
              "Failed to process city request" london_timestamp).
Proof.
  apply (C10_undecodable_body_is_500_without_effects
           (sample_runtime true true) (fresh_world [london_time])
           "{cityName:" london_timestamp
           (ErrorObj "SyntaxError" "Unexpected token in JSON")).
  - discriminate.
  - reflexivity.
Defined.

(** ** Code that only reads *)

Lemma reads_only_ret {A} (a : A) : reads_only (ret a).
Proof. intros rt w. reflexivity. Qed.

Lemma reads_only_throw {A} (e : thrown) : reads_only (@throw A e).
Proof. intros rt w. reflexivity. Qed.

Lemma reads_only_bind {A B} (c : M A) (k : A -> M B) :
  reads_only c -> (forall a, reads_only (k a)) -> reads_only (bind c k).
Proof.
  intros Hc Hk rt w. unfold bind. specialize (Hc rt w).
  destruct (c rt w) as [[a|e] w1]; cbn in *; subst w1; [apply Hk|reflexivity].
Qed.

Lemma reads_only_getenv name : reads_only (getenv name).
Proof. intros rt w. reflexivity. Qed.

Lemma reads_only_runtime : reads_only runtime.
Proof. intros rt w. reflexivity. Qed.

Lemma reads_only_lift_result {A} (r : thrown + A) : reads_only (lift_result r).
Proof. destruct r; intros rt w; reflexivity. Qed.

Lemma reads_only_prop o k : reads_only (prop o k).
Proof. destruct o; intros rt w; reflexivity. Qed.

Lemma reads_only_first_element a : reads_only (first_element a).
Proof. destruct a as [| | | |[|c s]| |]; intros rt w; reflexivity. Qed.

Lemma reads_only_to_string v : reads_only (to_string v).
Proof. intros rt w. reflexivity. Qed.

Lemma reads_only_to_number v : reads_only (to_number v).
Proof. destruct v; intros rt w; reflexivity. Qed.

Lemma reads_only_date_toISOString t : reads_only (date_toISOString t).
Proof.
  unfold date_toISOString. destruct (toISOString t); intros rt w; reflexivity.
Qed.

Lemma reads_only_marshall data : reads_only (marshall data).
Proof.
  intros rt w. destruct (marshall_outcome data rt w) as [-> | [e ->]];
    reflexivity.
Qed.

Create HintDb reads_only.
#[local] Hint Resolve reads_only_ret reads_only_throw reads_only_getenv
  reads_only_runtime reads_only_lift_result reads_only_prop
  reads_only_first_element reads_only_to_string reads_only_to_number
  reads_only_date_toISOString reads_only_marshall : reads_only.

Ltac reads_only_step :=
  first
    [ solve [auto with reads_only]
    | apply reads_only_bind; [|intros ?]
    | match goal with
      | |- reads_only (match ?x with _ => _ end) => destruct x
      | |- reads_only (if ?b then _ else _) => destruct b
      end ].

Lemma reads_only_seconds_toISOString v : reads_only (seconds_toISOString v).
Proof. unfold seconds_toISOString. repeat reads_only_step. Qed.

#[local] Hint Resolve reads_only_seconds_toISOString : reads_only.

Lemma reads_only_fetchWeatherData cityName countryCode :
  reads_only (fetchWeatherData cityName countryCode).
Proof. unfold fetchWeatherData. repeat reads_only_step. Qed.

Lemma reads_only_generateWeatherDescription processingData :
  reads_only (generateWeatherDescription processingData).
Proof. unfold generateWeatherDescription. repeat reads_only_step. Qed.

(** ** [updateProcessingStatus] *)

(** The update expression of [updateProcessingStatus] assigns the sort
    key. *)
Lemma status_sets_assign_key status error ts :
  find (fun kv => existsb (String.eqb (fst kv)) key_attributes)
    (status_sets status error ts)
  = Some ("timestamp", VStr ts).
Proof. unfold status_sets. destruct error as [[|c e]|]; reflexivity. Qed.

(** The status update always returns, and it leaves the table, the log,
    the queues and the topic as they were: when the request reaches the
    store at all, the store refuses it. *)
Lemma updateProcessingStatus_refused cityId status error rt w :
  exists w',
    updateProcessingStatus cityId status error rt w = (Returned tt, w')
    /\ table w' = table w /\ log w' = log w
    /\ sqs_faults w' = sqs_faults w /\ sns_faults w' = sns_faults w
    /\ clock w' = tl (clock w).
Proof.
  unfold updateProcessingStatus. exec.
  match goal with
  | |- context [marshall ?d ?rt ?w0] =>
      destruct (marshall_outcome d rt w0) as [-> | [e ->]]
  end; exec.
  - rewrite status_sets_assign_key.
    destruct (hd None (ddb_faults w)); exec;
      eexists; (split; [reflexivity|]); cbn; auto.
  - eexists. split; [reflexivity|]. cbn. auto.
Qed.

(** The same, in the form the case analyses below use: the second case is
    what an accepted update would do. *)
Lemma updateProcessingStatus_spec cityId status error rt w :
  exists w',
    updateProcessingStatus cityId status error rt w = (Returned tt, w')
    /\ sqs_faults w' = sqs_faults w
    /\ sns_faults w' = sns_faults w
    /\ ((table w' = table w /\ log w' = log w)
        \/ exists c,
             let sets := status_sets status error
                           (iso_of_time (hd 0 (clock w))) in
             cityId = VStr c
             /\ log w' = (log w ++ [UpdateItem (c, "latest") sets])%list
             /\ table w' =
                  <[(c, "latest") :=
                      apply_sets sets
                        (default (latest_key cityId)
                           (table w !! (c, "latest")))]> (table w)).
Proof.
  destruct (updateProcessingStatus_refused cityId status error rt w)
    as (w' & Hrun & Htable & Hlog & Hsqs & Hsns & _).
  exists w'. split; [exact Hrun|]. split; [exact Hsqs|].
  split; [exact Hsns|]. left. split; assumption.
Qed.

(** ** Running the queue consumers *)

#[local] Arguments updateProcessingStatus : simpl never.
#[local] Arguments fetchWeatherData : simpl never.
#[local] Arguments generateWeatherDescription : simpl never.
#[local] Arguments marshall : simpl never.




(** One step of a consumer: a call whose behaviour is known by a lemma, or
    a case distinction on what the world answers. *)
Ltac consumer_step :=
  match goal with
  | |- context [updateProcessingStatus ?c ?s ?e ?rt ?w] =>
      let w1 := fresh "w" in
      let Hrun := fresh "Hrun" in
      let Hsqs := fresh "Hsqs" in
      let Hsns := fresh "Hsns" in
      let Hupd := fresh "Hupd" in
      destruct (updateProcessingStatus_spec c s e rt w)
        as (w1 & Hrun & Hsqs & Hsns & Hupd);
      rewrite Hrun; clear Hrun
  | |- context [fetchWeatherData ?a ?b ?rt ?w] =>
      let H := fresh "Hread" in
      pose proof (reads_only_fetchWeatherData a b rt w) as H;
      destruct (fetchWeatherData a b rt w) as [[? | ?] ?];
      cbn [snd] in H; subst
  | |- context [generateWeatherDescription ?a ?rt ?w] =>
      let H := fresh "Hread" in
      pose proof (reads_only_generateWeatherDescription a rt w) as H;
      destruct (generateWeatherDescription a rt w) as [[? | ?] ?];
      cbn [snd] in H; subst
  | |- context [marshall ?d ?rt ?w] =>
      let H := fresh "Hread" in
      let Hm := fresh "Hmarshall" in
      pose proof (reads_only_marshall d rt w) as H;
      destruct (marshall d rt w) as [[? | ?] ?] eqn:Hm;
      cbn [snd] in H; subst
  | |- context [answer (hd None ?fs)] =>
      destruct (hd None fs) eqn:?
  | |- context [match item_key ?it with _ => _ end] =>
      destruct (item_key it) eqn:?
  end; exec.

(** Use what is known about the answers of the queue and topic schedules. *)
Ltac known_answers :=
  exec;
  repeat (match goal with
          | H : sqs_faults _ = _ |- _ => rewrite H
          | H : sns_faults _ = _ |- _ => rewrite H
          | H : hd None _ = None |- _ => rewrite H
          end; exec).

Ltac run_consumer := known_answers; repeat (consumer_step; known_answers).

Ltac split_updates :=
  repeat match goal with
         | H : _ /\ _ \/ _ |- _ => destruct H as [[? ?] | (? & ? & ? & ?)]
         end.

Ltac show_appended :=
  unfold appended; cbn [log];
  repeat match goal with
         | H : log _ = _ |- _ => rewrite H; clear H
         end;
  rewrite <- ?app_assoc; (reflexivity || (symmetry; apply app_nil_r)).



Lemma processWeatherRecord_undecodable rt w record e :
  JSON_parse rt (record_body record) = inl e ->
  processWeatherRecord record rt w = (Threw e, w).
Proof. intros H. unfold processWeatherRecord. exec. now rewrite H. Qed.

Lemma processLLMRecord_undecodable rt w record e :
  JSON_parse rt (record_body record) = inl e ->
  processLLMRecord record rt w = (Threw e, w).
Proof. intros H. unfold processLLMRecord. exec. now rewrite H. Qed.



(** ** The failure path of enrichment *)

Lemma assoc_set_field_eq k v fs : assoc k (set_field k v fs) = Some v.
Proof.
  induction fs as [|[k' v'] fs IH]; cbn.
  - now rewrite String.eqb_refl.
  - destruct (String.eqb k k') eqn:E; cbn; rewrite ?String.eqb_refl, ?E; auto.
Qed.

Lemma assoc_set_field_ne k k' v fs :
  k <> k' -> assoc k (set_field k' v fs) = assoc k fs.
Proof.
  intros Hne. apply String.eqb_neq in Hne.
  induction fs as [|[k0 v0] fs IH]; cbn.
  - now rewrite Hne.
  - destruct (String.eqb k' k0) eqn:E; cbn.
    + apply String.eqb_eq in E. subst k0. now rewrite Hne.
    + destruct (String.eqb k k0); auto.
Qed.




(** A missing weather credential makes the [try] block of enrichment
    throw the configuration error, whatever else the world does. *)
Lemma missing_weather_credential_fails_enrichment rt w record pd :
  is_nullish pd = false ->
  process_env rt OPENWEATHER_API_KEY = None ->
  exists w1,
    processWeatherRecord_try record pd rt w =
      (Threw (Error "OpenWeather API key not configured"), w1).
Proof.
  intros Hnn Hkey. unfold processWeatherRecord_try.
  rewrite !(prop_defined _ _ Hnn). exec.
  consumer_step. unfold fetchWeatherData. exec. rewrite Hkey. exec.
  eexists. reflexivity.
Qed.

Lemma to_string_shown v rt w : to_string v rt w = (Returned (shown rt v), w).
Proof. reflexivity. Qed.

(** A provider that cannot be reached makes the [try] block throw what
    [fetch] rejected with. *)
Lemma provider_rejection_fails_enrichment rt w record pd key e :
  is_nullish pd = false ->
  process_env rt OPENWEATHER_API_KEY = Some key ->
  key <> "" ->
  (forall url, fetch rt url = inl e) ->
  exists w1, processWeatherRecord_try record pd rt w = (Threw e, w1).
Proof.
  intros Hnn Hkey Hne Hfetch. unfold processWeatherRecord_try.
  rewrite !(prop_defined _ _ Hnn). exec.
  consumer_step. unfold fetchWeatherData. exec. rewrite Hkey.
  destruct key as [|c key]; [congruence|].
  destruct (truthy (field "countryCode" pd)); exec;
    rewrite ?to_string_shown; exec; rewrite ?to_string_shown; exec;
    rewrite Hfetch; exec; eexists; reflexivity.
Qed.

(** ** Persistence before enqueue *)

Lemma marshall_returns data rt w it w' :
  marshall data rt w = (Returned it, w') -> it = data.
Proof.
  destruct (marshall_outcome data rt w) as [-> | [e ->]]; congruence.
Qed.

(** A case distinction on the innermost undecided test of the goal. *)
Ltac case_step :=
  match goal with
  | |- context [match ?x with _ => _ end] =>
      lazymatch x with
      | context [match _ with _ => _ end] => fail
      | context [if _ then _ else _] => fail
      | _ => destruct x eqn:?
      end
  | |- context [if ?x then _ else _] =>
      lazymatch x with
      | context [match _ with _ => _ end] => fail
      | context [if _ then _ else _] => fail
      | _ => destruct x eqn:?
      end
  end; exec.

Ltac use_marshall :=
  repeat match goal with
         | H : marshall _ _ _ = (Returned _, _) |- _ =>
             apply marshall_returns in H; subst
         end.

Lemma item_key_timestamp fs ts k :
  item_key (set_field "timestamp" (VStr ts) fs) = Some k -> k.2 = ts.
Proof.
  unfold item_key. rewrite assoc_set_field_eq.
  destruct (assoc "cityId" _) as [[]|]; try discriminate. now intros [= <-].
Qed.

Lemma not_latest_key fs t (c : string) k :
  item_key (set_field "timestamp" (VStr (iso_of_time t)) fs) = Some k ->
  (c, "latest") <> k.
Proof.
  intros Hk <-. apply item_key_timestamp in Hk. cbn in Hk.
  symmetry in Hk. now apply iso_of_time_not_latest in Hk.
Qed.

(** The puts among the new effects are still in the final table. *)
Ltac show_stored :=
  unfold puts_stored; cbn [table]; intros ? Hin;
  rewrite ?in_app_iff in Hin; cbn in Hin;
  repeat (destruct Hin as [Hin|Hin]; try discriminate Hin);
  try contradiction;
  injection Hin as <-; eexists; (split; [eassumption|]);
  repeat match goal with
         | H : table _ = _ |- _ => rewrite H; clear H
         end;
  rewrite ?lookup_insert_ne
    by (unfold enriched_record in *; eapply not_latest_key; eassumption);
  apply lookup_insert_eq.

Lemma intake_sends_after_put rt w body timestamp :
  exists new,
    appended w (snd (processCityRequest body timestamp rt w)) new
    /\ sends_follow_puts rt [] new
    /\ puts_stored (table (snd (processCityRequest body timestamp rt w))) new.
Proof.
  unfold processCityRequest, marshall, prop. exec.
  repeat case_step.
  all: eexists; (split; [show_appended|]).
  all: split; [cbn; eauto 10|].
  all: show_stored.
Qed.

Lemma enrichment_sends_after_put rt w record :
  exists new,
    appended w (snd (processWeatherRecord record rt w)) new
    /\ sends_follow_puts rt [] new
    /\ puts_stored (table (snd (processWeatherRecord record rt w))) new.
Proof.
  unfold processWeatherRecord. exec.
  destruct (JSON_parse rt (record_body record)) as [e|pd]; exec.
  { exists []. split; [show_appended|]. split; [exact I|intros ? []]. }
  unfold processWeatherRecord_try, processWeatherRecord_catch.
  destruct (is_nullish pd) eqn:Hnn.
  - destruct pd; try discriminate Hnn; unfold prop; exec;
      (exists []; split; [show_appended|]; split; [exact I|intros ? []]).
  - rewrite !(prop_defined _ _ Hnn). run_consumer.
    all: split_updates; use_marshall.
    all: eexists; (split; [show_appended|]).
    all: split; [cbn; eauto 10|].
    all: show_stored.
Qed.

(** Intake and enrichment send to the next queue only after their own
    put has succeeded: in the effects of any [processCityRequest] and any
    [processWeatherRecord] invocation, every [SendMessage] carries the JSON
    text of a record that a [PutItem] earlier in the same invocation
    stored, and that record is in the table, under its own key, when the
    invocation ends. *)
Lemma enqueue_only_after_persistence (rt : Runtime) (w : World) :
  (forall body timestamp,
     exists new,
       appended w (snd (processCityRequest body timestamp rt w)) new
       /\ sends_follow_puts rt [] new
       /\ puts_stored
            (table (snd (processCityRequest body timestamp rt w))) new)
  /\ (forall record,
        exists new,
          appended w (snd (processWeatherRecord record rt w)) new
          /\ sends_follow_puts rt [] new
          /\ puts_stored (table (snd (processWeatherRecord record rt w))) new).
Proof.
  split; intros; [apply intake_sends_after_put|apply enrichment_sends_after_put].
Qed.

(** C7. On the sample runtime, with every service answering, the London
    job reaches each consumer while it is invisible to status queries.
    Intake stores the pending record and then sends the job to Queue A,
    and the status query for the job, issued when the message is on the
    queue, is answered 404.  Enrichment of that message stores the
    enriched record and then sends the job to Queue B, and the status
    query is answered 404 again. *)
Theorem C7_consumers_receive_a_job_invisible_to_status_queries :
  let rt := sample_runtime true true in
  exists accepted w1 w2,
    handler (post_cities london_request) rt
      (fresh_world (london_time :: london_time :: enrichment_times))
    = (Returned accepted, w1)
    /\ statusCode accepted = 202
    /\ log w1 !! 0%nat
       = Some (PutItem (pending_record london_id (VStr "London") (VStr "GB")
                          london_timestamp))
    /\ log w1 !! 1%nat
       = Some (SendMessage (Some "https://sqs.example/city-processing-queue")
                 london_message
                 [("cityId", VStr london_id); ("cityName", VStr "London")])
    /\ (exists answer w',
          handler (get_status london_id) rt w1 = (Returned answer, w')
          /\ statusCode answer = 404)
    /\ weather_handler [london_record] rt w1 = (Returned tt, w2)
    /\ log w2 !! 3%nat
       = Some (PutItem (enriched_record london_pending london_weather
                          enrichment_timestamp))
    /\ log w2 !! 4%nat
       = Some (SendMessage (Some "https://sqs.example/llm-processing-queue")
                 london_enriched_message
                 [("cityId", VStr london_id); ("cityName", VStr "London")])
    /\ (exists answer w',
          handler (get_status london_id) rt w2 = (Returned answer, w')
          /\ statusCode answer = 404).
Proof.
  cbv zeta. eexists _, _, _.
  split; [vm_compute; reflexivity|].
  split; [reflexivity|].
  split; [vm_compute; reflexivity|].
  split; [vm_compute; reflexivity|].
  split; [eexists _, _; split; [vm_compute; reflexivity|reflexivity]|].
  split; [vm_compute; reflexivity|].
  split; [vm_compute; reflexivity|].
  split; [vm_compute; reflexivity|].
  eexists _, _. split; [vm_compute; reflexivity|reflexivity].
Qed.

(** A put that returns has stored its item under the item's key. *)
Lemma dynamodb_put_stores it rt w w' :
  dynamodb_put it rt w = (Returned tt, w') ->
  exists k, item_key it = Some k /\ table w' !! k = Some it
            /\ log w' = (log w ++ [PutItem it])%list.
Proof.
  exec. destruct (hd None (ddb_faults w)); exec; [discriminate|].
  destruct (item_key it) as [k|]; exec; [|discriminate].
  intros [= <-]. exists k. cbn. split; [reflexivity|].
  split; [apply lookup_insert_eq|reflexivity].
Qed.

(** ** Weather data in the record store *)

Lemma table_unchanged_preserves {A} (c : M A) :
  table_unchanged c -> preserves c.
Proof. intros H rt w G. now rewrite H. Qed.

Lemma reads_only_table_unchanged {A} (c : M A) :
  reads_only c -> table_unchanged c.
Proof. intros H rt w. now rewrite H. Qed.

Lemma table_unchanged_bind {A B} (c : M A) (k : A -> M B) :
  table_unchanged c -> (forall a, table_unchanged (k a)) ->
  table_unchanged (bind c k).
Proof.
  intros Hc Hk rt w. unfold bind. specialize (Hc rt w).
  destruct (c rt w) as [[a|e] w1]; cbn in *; [|exact Hc].
  now rewrite Hk.
Qed.

Lemma table_unchanged_call (c : M unit) :
  c = ddb_call \/ c = sqs_call \/ c = sns_call -> table_unchanged c.
Proof. intros [-> | [-> | ->]] rt w; reflexivity. Qed.

Lemma table_unchanged_record_effect e : table_unchanged (record_effect e).
Proof. intros rt w. reflexivity. Qed.

Lemma table_unchanged_Date_now : table_unchanged Date_now.
Proof. intros rt w. reflexivity. Qed.

Lemma table_unchanged_now_iso : table_unchanged now_iso.
Proof. intros rt w. reflexivity. Qed.

Lemma table_unchanged_json_stringify v : table_unchanged (json_stringify v).
Proof. intros rt w. reflexivity. Qed.

Lemma table_unchanged_json_parse s : table_unchanged (json_parse s).
Proof.
  intros rt w. unfold json_parse. destruct (JSON_parse rt s); reflexivity.
Qed.

Lemma table_unchanged_createResponse code body :
  table_unchanged (createResponse code body).
Proof. intros rt w. reflexivity. Qed.

Lemma table_unchanged_sqs_send q m a : table_unchanged (sqs_send q m a).
Proof.
  intros rt w. exec. destruct (hd None (sqs_faults w)); reflexivity.
Qed.

Lemma table_unchanged_sqs_delete q r : table_unchanged (sqs_delete q r).
Proof.
  intros rt w. exec. destruct (hd None (sqs_faults w)); reflexivity.
Qed.

Lemma table_unchanged_sns_publish s m : table_unchanged (sns_publish s m).
Proof.
  intros rt w. exec. destruct (hd None (sns_faults w)); reflexivity.
Qed.

Lemma table_unchanged_dynamodb_get key : table_unchanged (dynamodb_get key).
Proof.
  intros rt w. exec. destruct (hd None (ddb_faults w)); exec; [reflexivity|].
  destruct (item_key key); reflexivity.
Qed.

Lemma preserves_bind {A B} (c : M A) (k : A -> M B) :
  preserves c -> (forall a, preserves (k a)) -> preserves (bind c k).
Proof.
  intros Hc Hk rt w G. unfold bind. specialize (Hc rt w G).
  destruct (c rt w) as [[a|e] w1]; cbn in *; [|exact Hc].
  now apply Hk.
Qed.

Lemma preserves_try_catch {A} (c : M A) (h : thrown -> M A) :
  preserves c -> (forall e, preserves (h e)) -> preserves (try_catch c h).
Proof.
  intros Hc Hh rt w G. unfold try_catch. specialize (Hc rt w G).
  destruct (c rt w) as [[a|e] w1]; cbn in *; [exact Hc|].
  now apply Hh.
Qed.

(** After [new Date().toISOString()] the continuation runs on an ISO
    string. *)
Lemma preserves_bind_now_iso {B} (k : string -> M B) :
  (forall t, preserves (k (iso_of_time t))) -> preserves (bind now_iso k).
Proof. intros Hk rt w G. exec. now apply Hk. Qed.

(** After [marshall(data)] the continuation runs on [data]. *)
Lemma preserves_bind_marshall {B} data (k : item -> M B) :
  preserves (k data) -> preserves (bind (marshall data) k).
Proof.
  intros Hk rt w G. unfold bind.
  destruct (marshall_outcome data rt w) as [-> | [e ->]]; cbn;
    [now apply Hk|exact G].
Qed.

Lemma good_table_insert t k it :
  good_table t -> good_entry k it -> good_table (<[k := it]> t).
Proof.
  intros G E k' it'. rewrite lookup_insert.
  case_decide as Hk; [intros [= <-]; now subst k'|apply G].
Qed.

Lemma preserves_dynamodb_put it :
  (forall k, item_key it = Some k -> good_entry k it) ->
  preserves (dynamodb_put it).
Proof.
  intros E rt w G. exec. destruct (hd None (ddb_faults w)); exec; [exact G|].
  destruct (item_key it) as [k|]; exec; [|exact G].
  apply good_table_insert; auto.
Qed.

Lemma weather_after_update status error ts it :
  assoc "weatherData" (apply_sets (status_sets status error ts) it)
  = assoc "weatherData" it.
Proof.
  unfold apply_sets, status_sets.
  destruct error as [[|c e]|]; cbn;
    now rewrite ?(assoc_set_field_ne "weatherData" "timestamp"),
      ?(assoc_set_field_ne "weatherData" "error"),
      ?(assoc_set_field_ne "weatherData" "status") by discriminate.
Qed.

Lemma preserves_updateProcessingStatus cityId status error :
  preserves (updateProcessingStatus cityId status error).
Proof.
  intros rt w G.
  destruct (updateProcessingStatus_spec cityId status error rt w)
    as (w' & Hrun & _ & _ & Hupd).
  rewrite Hrun. cbn [snd].
  destruct Hupd as [[-> _] | (c & -> & _ & ->)]; [exact G|].
  apply good_table_insert; [exact G|].
  intros [v Hv]. rewrite weather_after_update in Hv.
  destruct (table w !! (c, "latest")) as [old|] eqn:Hold; cbn in Hv.
  - destruct (G _ _ Hold) as [Hk _]; [now exists v|]. now cbn in Hk.
  - discriminate.
Qed.

Lemma good_enriched pd weatherData ts k :
  ts <> "latest" ->
  item_key (enriched_record pd weatherData ts) = Some k ->
  good_entry k (enriched_record pd weatherData ts).
Proof.
  intros Hts Hk _. apply item_key_timestamp in Hk. split; [congruence|].
  left. unfold has_status, enriched_record.
  rewrite !assoc_set_field_ne by discriminate. apply assoc_set_field_eq.
Qed.

Lemma good_completed pd description ts k :
  ts <> "latest" ->
  item_key (completed_record pd description ts) = Some k ->
  good_entry k (completed_record pd description ts).
Proof.
  intros Hts Hk _. apply item_key_timestamp in Hk. split; [congruence|].
  right. unfold has_status, completed_record.
  rewrite !assoc_set_field_ne by discriminate. apply assoc_set_field_eq.
Qed.

Lemma good_pending cityId cityName countryCode ts k :
  good_entry k (pending_record cityId cityName countryCode ts).
Proof. intros [v Hv]. discriminate. Qed.

Create HintDb preserves.
#[local] Hint Resolve table_unchanged_record_effect table_unchanged_Date_now
  table_unchanged_now_iso table_unchanged_json_stringify
  table_unchanged_json_parse table_unchanged_createResponse
  table_unchanged_sqs_send table_unchanged_sqs_delete
  table_unchanged_sns_publish table_unchanged_dynamodb_get
  reads_only_table_unchanged table_unchanged_preserves
  preserves_updateProcessingStatus reads_only_fetchWeatherData
  reads_only_generateWeatherDescription : preserves.
#[local] Hint Resolve reads_only_ret reads_only_throw reads_only_getenv
  reads_only_runtime reads_only_lift_result reads_only_prop
  reads_only_to_string reads_only_marshall : preserves.

Ltac preserves_step :=
  first
    [ solve [auto with preserves]
    | apply preserves_dynamodb_put; intros ? ?;
      first [ apply good_pending
            | apply good_enriched; [apply iso_of_time_not_latest|assumption]
            | apply good_completed; [apply iso_of_time_not_latest|assumption] ]
    | apply preserves_bind_now_iso; intros ?
    | apply preserves_bind_marshall
    | apply preserves_bind; [|intros ?]
    | apply preserves_try_catch; [|intros ?]
    | match goal with
      | |- preserves (match ?x with _ => _ end) => destruct x
      | |- preserves (if ?b then _ else _) => destruct b
      end ].

Lemma preserves_processCityRequest body timestamp :
  preserves (processCityRequest body timestamp).
Proof. unfold processCityRequest. cbv zeta. repeat preserves_step. Qed.

Lemma preserves_getProcessingStatus cityId :
  preserves (getProcessingStatus cityId).
Proof. unfold getProcessingStatus. repeat preserves_step. Qed.

Lemma preserves_handler event : preserves (handler event).
Proof.
  unfold handler. cbv zeta.
  repeat first [ apply preserves_processCityRequest
               | apply preserves_getProcessingStatus
               | preserves_step ].
Qed.

Lemma preserves_processWeatherRecord record :
  preserves (processWeatherRecord record).
Proof.
  unfold processWeatherRecord, processWeatherRecord_try,
    processWeatherRecord_catch. cbv zeta.
  repeat preserves_step.
Qed.

Lemma preserves_processLLMRecord record :
  preserves (processLLMRecord record).
Proof.
  unfold processLLMRecord, processLLMRecord_try, processLLMRecord_catch.
  cbv zeta. repeat preserves_step.
Qed.

Lemma preserves_for_each_record process records :
  (forall record, preserves (process record)) ->
  preserves (for_each_record process records).
Proof.
  intros H. induction records as [|record rest IH]; cbn [for_each_record].
  - auto with preserves.
  - repeat preserves_step; auto.
Qed.

Lemma preserves_invoke i : preserves (invoke i).
Proof.
  destruct i; cbn [invoke].
  - apply preserves_bind; [apply preserves_handler|auto with preserves].
  - apply preserves_for_each_record, preserves_processWeatherRecord.
  - apply preserves_for_each_record, preserves_processLLMRecord.
Qed.

Lemma reachable_good t : reachable t -> good_table t.
Proof.
  induction 1 as [|i rt w _ IH].
  - intros k it Hk. rewrite lookup_empty in Hk. discriminate.
  - now apply preserves_invoke.
Qed.

(** C2 (as amended). In every reachable table, a record that carries
    [weatherData] has status [weather_processing] (the in-progress marker
    of enrichment) or [completed], and is not the ["latest"] entry of its
    job. *)
Theorem C2_weather_data_only_with_enriching_or_completed
    (t : gmap (string * string) item) (cityId timestamp : string) (it : item) :
  reachable t ->
  t !! (cityId, timestamp) = Some it ->
  carries_weather it ->
  (has_status "weather_processing" it \/ has_status "completed" it)
  /\ timestamp <> "latest".
Proof.
  intros Hr Hit Hw.
  destruct (reachable_good t Hr _ _ Hit Hw) as [Hk Hs]. auto.
Qed.

(** Records whose status is [pending], [llm_processing] or [failed] carry
    no weather data. *)
Corollary other_statuses_carry_no_weather t cityId timestamp it s :
  reachable t ->
  t !! (cityId, timestamp) = Some it ->
  has_status s it ->
  s = "pending" \/ s = "llm_processing" \/ s = "failed" ->
  ~ carries_weather it.
Proof.
  intros Hr Hit Hs Hcases Hw.
  destruct (reachable_good t Hr _ _ Hit Hw) as [_ [H|H]];
    unfold has_status in *; rewrite Hs in H; injection H as ->;
    destruct Hcases as [|[|]]; discriminate.
Qed.

Lemma table_after_enrichment_reachable : reachable table_after_enrichment.
Proof. apply reachable_invoke. cbn. apply reachable_empty. Qed.

(** C2, counterexample. After a successful enrichment of the London job the
    table is reachable and holds a record whose status is the in-progress
    marker of enrichment and which carries [weatherData]. *)
Lemma C2_enriching_record_carries_weather_counterexample :
  reachable table_after_enrichment
  /\ exists it,
       table_after_enrichment !! (london_id, enrichment_timestamp) = Some it
       /\ has_status "weather_processing" it
       /\ assoc "weatherData" it = Some london_weather.
Proof.
  split; [apply table_after_enrichment_reachable|].
  eexists. split; [vm_compute; reflexivity|]. split; reflexivity.
Qed.

(** The amended C2 on the record a successful enrichment stored. *)
Lemma C2_weather_data_witness :
  (has_status "weather_processing"
     (enriched_record london_pending london_weather enrichment_timestamp)
   \/ has_status "completed"
        (enriched_record london_pending london_weather enrichment_timestamp))
  /\ enrichment_timestamp <> "latest".
Proof.
  apply (C2_weather_data_only_with_enriching_or_completed
           table_after_enrichment london_id enrichment_timestamp
           (enriched_record london_pending london_weather enrichment_timestamp)).
  - apply table_after_enrichment_reachable.
  - vm_compute. reflexivity.
  - eexists. reflexivity.
Defined.

(** ** The description stage *)


(** C3. On a runtime without the OpenAI credential, the description stage
    processes the Queue B message of the London job to the end: it stores
    the job as [completed] with the fixed text as [llmDescription] and
    deletes the message, where the guards the source places after the
    early [return] would have thrown the configuration error. *)
Theorem C3_description_succeeds_without_credential :
  let rt := sample_runtime true false in
  process_env rt OPENAI_API_KEY = None
  /\ JSON_parse rt london_enriched_message = inr london_enriched
  /\ generateWeatherDescription_unreached_guards london_enriched rt
       (fresh_world description_times)
     = (Threw (Error "OpenAI API key not configured"),
        fresh_world description_times)
  /\ exists w',
       processLLMRecord london_enriched_record rt
         (fresh_world description_times) = (Returned tt, w')
       /\ table w' !! (london_id, description_timestamp)
          = Some (completed_record london_enriched
                    (fake_description rt london_enriched)
                    description_timestamp)
       /\ In (DeleteMessage (Some "https://sqs.example/llm-processing-queue")
                "receipt-2") (log w').
Proof.
  cbv zeta. split; [reflexivity|]. split; [vm_compute; reflexivity|].
  split; [reflexivity|].
  eexists. split; [vm_compute; reflexivity|].
  split; [vm_compute; reflexivity|]. cbn. auto 10.
Qed.

(** ** Failures on the failure path *)



(** With the credential missing and every service answering, the status
    update to [failed] is refused by the store and swallowed, so that
    nothing is stored; the failure is published and the message
    deleted. *)
Example missing_credential_is_notified :
  exists w' note,
    processWeatherRecord london_record (sample_runtime false true)
      (fresh_world enrichment_times) = (Returned tt, w')
    /\ table w' = ∅
    /\ log w' =
         [Publish (Some "arn:aws:sns:weather-processing-notifications")
            "Weather Processing Failed" note;
          DeleteMessage (Some "https://sqs.example/weather-processing-queue")
            "receipt-1"].
Proof.
  eexists _, _. split; [vm_compute; reflexivity|]. split; reflexivity.
Qed.


(** A body that decodes to [null] is not deleted either: reading
    [processingData.cityId] in the [catch] block throws. *)
Example null_body_is_left_on_the_queue :
  JSON_parse (sample_runtime true true) "null" = inr VNull
  /\ exists e,
       processWeatherRecord {| record_body := "null"; receiptHandle := "r" |}
         (sample_runtime true true) (fresh_world enrichment_times)
       = (Threw e, fresh_world enrichment_times).
Proof. split; [vm_compute; reflexivity|]. eexists. vm_compute. reflexivity. Qed.


(** * Further properties *)

(** ** The HTTP handler of city-processor.ts *)

Lemma getProcessingStatus_answers cityId rt w :
  exists r w',
    getProcessingStatus cityId rt w = (Returned r, w')
    /\ In (statusCode r) [200; 404; 500]
    /\ headers r = cors_headers
    /\ table w' = table w /\ log w' = log w.
Proof.
  unfold getProcessingStatus, marshall. exec.
  repeat case_step.
  all: eexists _, _; (split; [reflexivity|]); cbn; auto 10.
Qed.

Lemma processCityRequest_answers body timestamp rt w :
  exists r w',
    processCityRequest body timestamp rt w = (Returned r, w')
    /\ In (statusCode r) [202; 400; 500]
    /\ headers r = cors_headers.
Proof.
  unfold processCityRequest, marshall, prop. exec.
  repeat case_step.
  all: eexists _, _; (split; [reflexivity|]); cbn; auto 10.
Qed.

#[local] Arguments getProcessingStatus : simpl never.
#[local] Arguments processCityRequest : simpl never.

(** X1. The HTTP handler never lets an exception escape: whatever the
    event, the runtime and the faults, it returns a response, with status
    200, 202, 400, 404 or 500 and with the CORS headers. *)
Theorem handler_always_answers
    (rt : Runtime) (w : World) (event : APIGatewayProxyEvent) :
  exists r w',
    handler event rt w = (Returned r, w')
    /\ In (statusCode r) [200; 202; 400; 404; 500]
    /\ headers r = cors_headers.
Proof.
  unfold handler. exec.
  destruct (_ && _); exec.
  { eexists _, _. split; [reflexivity|]. cbn. auto. }
  destruct (_ && _); exec.
  { match goal with
    | |- context [getProcessingStatus ?c ?rt ?w] =>
        pose proof (getProcessingStatus_answers c rt w) as HH
    end.
    destruct HH as (r & w' & Hrun & Hc & Hh & _). rewrite Hrun.
    exists r, w'. split; [reflexivity|]. split; [|exact Hh].
    cbn in *. intuition. }
  destruct (_ && _); exec.
  { match goal with
    | |- context [processCityRequest ?b ?t ?rt ?w] =>
        destruct (processCityRequest_answers b t rt w)
          as (r & w' & Hrun & Hc & Hh); rewrite Hrun
    end.
    exists r, w'. split; [reflexivity|]. split; [|exact Hh].
    cbn in *. intuition. }
  eexists _, _. split; [reflexivity|]. cbn. auto 10.
Qed.

(** X2. Only a POST to [/cities] has effects: any other event leaves the
    table and the log of effects as they were. *)
Theorem handler_effects_only_on_create
    (rt : Runtime) (w : World) (event : APIGatewayProxyEvent) :
  is_create event = false ->
  table (snd (handler event rt w)) = table w
  /\ log (snd (handler event rt w)) = log w.
Proof.
  unfold is_create. intros Hc. unfold handler. exec.
  destruct (String.eqb (path event) "/health" && _); exec; [auto|].
  destruct (startsWith "/status/" (path event) && _); exec.
  { match goal with
    | |- context [getProcessingStatus ?c ?rt ?w] =>
        destruct (getProcessingStatus_answers c rt w)
          as (r & w' & Hrun & _ & _ & Ht & Hl); rewrite Hrun
    end.
    cbn in *. auto. }
  rewrite Hc. exec. auto.
Qed.

(** Witness of X2: a status query. *)
Lemma handler_effects_only_on_create_witness :
  table (snd (handler (get_status london_id) (sample_runtime true true)
                (fresh_world [london_time]))) = table (fresh_world [london_time])
  /\ log (snd (handler (get_status london_id) (sample_runtime true true)
                 (fresh_world [london_time]))) = log (fresh_world [london_time]).
Proof.
  apply (handler_effects_only_on_create (sample_runtime true true)
           (fresh_world [london_time]) (get_status london_id)).
  reflexivity.
Defined.

Lemma append_char_assoc acc c s :
  (acc +:+ String c "") +:+ s = acc +:+ String c s.
Proof.
  induction acc as [|a acc IH]; [reflexivity|].
  change (String a ((acc +:+ String c "") +:+ s) = String a (acc +:+ String c s)).
  now rewrite IH.
Qed.

Lemma append_empty_r s : s +:+ "" = s.
Proof.
  induction s as [|a s IH]; [reflexivity|].
  change (String a (s +:+ "") = String a s). now rewrite IH.
Qed.

Lemma head_split_slash acc s :
  head (split_slash acc s) = Some (acc +:+ before_slash s).
Proof.
  revert acc. induction s as [|c s IH]; intros acc; cbn.
  - now rewrite append_empty_r.
  - destruct (Ascii.eqb c "/"); cbn; [now rewrite append_empty_r|].
    rewrite IH. unfold char_str. now rewrite append_char_assoc.
Qed.

Lemma status_path_segment id :
  nth_error (split_slash "" ("/status/" +:+ id)) 2 = Some (before_slash id).
Proof.
  change (nth_error (split_slash "" ("/status/" +:+ id)) 2)
    with (head (split_slash "" id)).
  apply head_split_slash.
Qed.

Lemma before_slash_free id :
  free_of (fun c => Ascii.eqb c "/") id = true -> before_slash id = id.
Proof.
  induction id as [|c id IH]; cbn; [reflexivity|].
  destruct (Ascii.eqb c "/"); cbn; [discriminate|].
  intros H. now rewrite IH.
Qed.

(** X3. A GET on [/status/<rest>] is a status query for the part of
    [<rest>] before its first slash, made after one reading of the clock;
    nothing else of the event matters. *)
Theorem handler_routes_status_queries
    (rt : Runtime) (w : World) (rest : string) (b : option string) :
  handler {| httpMethod := "GET"; path := "/status/" +:+ rest; body := b |}
    rt w
  = getProcessingStatus (VStr (before_slash rest)) rt (after_clock_read w).
Proof.
  unfold handler. cbv [path httpMethod body].
  pose proof (status_path_segment rest) as Hseg.
  cbv [String.append] in *. exec. rewrite Hseg.
  replace (String.prefix "" rest) with true by (destruct rest; reflexivity).
  exec.
  destruct (getProcessingStatus_answers (VStr (before_slash rest)) rt
              (after_clock_read w)) as (r & w' & Hrun & _).
  unfold after_clock_read in *. rewrite Hrun. reflexivity.
Qed.

(** ** Intake: the create request through its three calls *)

Lemma processCityRequest_store_refusal rt w b name countryCode timestamp e :
  valid_request rt b name countryCode ->
  hd None (ddb_faults w) = Some e ->
  exists r w',
    processCityRequest (Some b) timestamp rt w = (Returned r, w')
    /\ statusCode r = 500 /\ table w' = table w /\ log w' = log w.
Proof.
  intros (Hb & Hname & fs & Hparse & Hcity & Hcc & Hdef) Hddb.
  unfold processCityRequest. destruct b as [|c b]; [congruence|].
  exec. rewrite Hparse. unfold prop. exec. rewrite Hcity, Hcc. exec.
  rewrite (eqb_nonempty _ Hname). exec.
  match goal with
  | |- context [marshall ?d ?rt ?w0] =>
      destruct (marshall_outcome d rt w0) as [-> | [e' ->]]
  end; exec.
  - rewrite Hddb. exec. eexists _, _. split; [reflexivity|]. cbn. auto.
  - eexists _, _. split; [reflexivity|]. cbn. auto.
Qed.



(** X5. When the store refuses the put of a valid create request, the
    answer is 500 and nothing has happened: no record, no message, no
    notification. *)
Theorem intake_store_failure_is_500_without_effects
    (rt : Runtime) (w : World) (b name : string) (countryCode : value)
    (timestamp : string) (e : thrown) :
  valid_request rt b name countryCode ->
  hd None (ddb_faults w) = Some e ->
  exists r w',
    processCityRequest (Some b) timestamp rt w = (Returned r, w')
    /\ statusCode r = 500 /\ table w' = table w /\ log w' = log w.
Proof. apply processCityRequest_store_refusal. Qed.

(** The store refuses the first request. *)
Lemma intake_store_failure_witness :
  exists r w',
    processCityRequest (Some london_request) london_timestamp
      (sample_runtime true true)
      (world ∅ [Some service_unavailable] [] [] [london_time])
    = (Returned r, w')
    /\ statusCode r = 500
    /\ table w' = table (world ∅ [Some service_unavailable] [] [] [london_time])
    /\ log w' = log (world ∅ [Some service_unavailable] [] [] [london_time]).
Proof.
  apply (intake_store_failure_is_500_without_effects
           (sample_runtime true true)
           (world ∅ [Some service_unavailable] [] [] [london_time])
           london_request "London" (VStr "GB") london_timestamp
           service_unavailable).
  - apply sample_valid_request.
  - reflexivity.
Defined.



(** X7. A create request that names a city but no country is answered 500
    and has no effects, whatever the services would have answered:
    [marshall] refuses the pending record, whose [countryCode] is
    [undefined]. *)
Theorem intake_without_countryCode_is_500
    (rt : Runtime) (w : World) (b name : string) (timestamp : string)
    (fs : list (string * value)) :
  b <> "" ->
  JSON_parse rt b = inr (VObj fs) ->
  assoc "cityName" fs = Some (VStr name) ->
  name <> "" ->
  assoc "countryCode" fs = None ->
  exists r w',
    processCityRequest (Some b) timestamp rt w = (Returned r, w')
    /\ statusCode r = 500 /\ table w' = table w /\ log w' = log w.
Proof.
  intros Hb Hparse Hcity Hname Hcc.
  unfold processCityRequest. destruct b as [|c b]; [congruence|].
  exec. rewrite Hparse. unfold prop. exec. rewrite Hcity, Hcc. exec.
  rewrite (eqb_nonempty _ Hname). exec. unfold marshall, pending_record.
  exec. eexists _, _. split; [reflexivity|]. cbn. auto.
Qed.

Lemma intake_without_countryCode_witness :
  exists r w',
    processCityRequest (Some paris_request) london_timestamp
      (sample_runtime true true) (fresh_world [london_time])
    = (Returned r, w')
    /\ statusCode r = 500
    /\ table w' = table (fresh_world [london_time])
    /\ log w' = log (fresh_world [london_time]).
Proof.
  apply (intake_without_countryCode_is_500 (sample_runtime true true)
           (fresh_world [london_time]) paris_request "Paris" london_timestamp
           [("cityName", VStr "Paris")]).
  - discriminate.
  - reflexivity.
  - reflexivity.
  - discriminate.
  - reflexivity.
Defined.

(** X8. A create request whose [cityName] is truthy but not a string (a
    number, [true], an array, an object) is answered 500, not 400, and has
    no effects: the call of [toLowerCase] on it throws. *)
Theorem intake_non_string_cityName_is_500
    (rt : Runtime) (w : World) (b : string) (timestamp : string)
    (fs : list (string * value)) (v : value) :
  b <> "" ->
  JSON_parse rt b = inr (VObj fs) ->
  assoc "cityName" fs = Some v ->
  truthy v = true ->
  (forall s, v <> VStr s) ->
  exists r,
    processCityRequest (Some b) timestamp rt w = (Returned r, w)
    /\ statusCode r = 500.
Proof.
  intros Hb Hparse Hcity Htruthy Hns.
  unfold processCityRequest. destruct b as [|c b]; [congruence|].
  exec. rewrite Hparse. unfold prop. exec. rewrite Hcity. exec.
  rewrite Htruthy. exec.
  destruct v; try (eexists; split; reflexivity).
  now destruct (Hns s).
Qed.

Lemma intake_non_string_cityName_witness :
  exists r,
    processCityRequest (Some "{cityName:5}") london_timestamp
      {| JSON_parse := fun _ => inr (VObj [("cityName", VNum 5)]);
         JSON_stringify := sample_stringify;
         encodeURIComponent := fun s => s;
         String_of := fun _ => "";
         Number_of := fun _ => None;
         process_env := fun _ => None;
         process_uptime := 0;
         fetch := fun _ => inl service_unavailable;
         unsafe_number_message := sample_unsafe_number_message |}
      (fresh_world [london_time])
    = (Returned r, fresh_world [london_time])
    /\ statusCode r = 500.
Proof.
  apply (intake_non_string_cityName_is_500 _ (fresh_world [london_time])
           "{cityName:5}" london_timestamp [("cityName", VNum 5)] (VNum 5)).
  - discriminate.
  - reflexivity.
  - reflexivity.
  - reflexivity.
  - discriminate.
Defined.

(** ** The job identifier *)

Lemma append_cancel_l s a b : s +:+ a = s +:+ b -> a = b.
Proof.
  induction s as [|c s IH]; [auto|].
  change (String c (s +:+ a) = String c (s +:+ b) -> a = b).
  intros [= H]. auto.
Qed.

(** X9. The same city name submitted at two different milliseconds gets two
    different job identifiers. *)
Theorem make_cityId_differs_with_time (name : string) (t1 t2 : Z) :
  t1 <> t2 -> make_cityId name t1 <> make_cityId name t2.
Proof.
  intros Hne H. unfold make_cityId in H.
  apply append_cancel_l in H. apply (append_cancel_l "-") in H.
  apply Hne. eapply (inj pretty). exact H.
Qed.

Lemma make_cityId_differs_witness :
  make_cityId "London" 1704110400000 <> make_cityId "London" 1704110400001.
Proof. apply (make_cityId_differs_with_time "London"). discriminate. Defined.

Lemma lower_char_not_upper c : is_upper (lower_char c) = false.
Proof. destruct c as [[] [] [] [] [] [] [] []]; reflexivity. Qed.

Lemma lower_char_idempotent c : lower_char (lower_char c) = lower_char c.
Proof. destruct c as [[] [] [] [] [] [] [] []]; reflexivity. Qed.

Lemma toLowerCase_idempotent s : toLowerCase (toLowerCase s) = toLowerCase s.
Proof.
  induction s as [|c s IH]; cbn [toLowerCase]; [reflexivity|].
  now rewrite lower_char_idempotent, IH.
Qed.

Lemma toLowerCase_no_upper s : free_of is_upper (toLowerCase s) = true.
Proof.
  induction s as [|c s IH]; cbn [toLowerCase free_of]; [reflexivity|].
  now rewrite lower_char_not_upper, IH.
Qed.

Lemma replace_spaces_no_space b s : free_of is_space (replace_spaces b s) = true.
Proof.
  revert b. induction s as [|c s IH]; intros b; cbn [replace_spaces free_of];
    [reflexivity|].
  destruct (is_space c) eqn:E.
  - destruct b; cbn [free_of]; rewrite ?IH; reflexivity.
  - cbn [free_of]. now rewrite E, IH.
Qed.

Lemma replace_spaces_no_upper b s :
  free_of is_upper s = true -> free_of is_upper (replace_spaces b s) = true.
Proof.
  revert b. induction s as [|c s IH]; intros b; cbn [replace_spaces free_of];
    [reflexivity|].
  intros H. apply andb_prop in H as [Hc Hs].
  destruct (is_space c).
  - destruct b; cbn [free_of]; rewrite ?IH; auto.
  - cbn [free_of]. now rewrite Hc, IH.
Qed.

Lemma same_letter_lower a b : same_letter a b -> lower_char a = lower_char b.
Proof.
  assert (up : forall x y,
             is_upper x = true ->
             nat_of_ascii y = (nat_of_ascii x + 32)%nat ->
             lower_char x = lower_char y).
  { intros x y Hx Hy. rewrite <- (ascii_nat_embedding y), Hy. clear Hy.
    destruct x as [[] [] [] [] [] [] [] []]; try discriminate Hx;
      reflexivity. }
  intros [->|[[Ha Hb]|[Hb Ha]]]; [reflexivity| |symmetry]; now apply up.
Qed.

Lemma case_variant_lower s t :
  case_variant s t -> toLowerCase s = toLowerCase t.
Proof.
  induction 1 as [|a b s t Hab _ IH]; cbn [toLowerCase]; [reflexivity|].
  now rewrite (same_letter_lower _ _ Hab), IH.
Qed.

(** X10. A job identifier is a slug, a hyphen and the time in decimal; the
    slug holds no white space and no upper-case letter, and every name
    that differs from the given one only in the case of its letters gets
    the same identifier at the same time. *)
Theorem make_cityId_slug (name : string) (now : Z) :
  exists slug,
    make_cityId name now = slug +:+ "-" +:+ pretty now
    /\ free_of is_space slug = true
    /\ free_of is_upper slug = true
    /\ forall other, case_variant name other ->
                     make_cityId other now = slug +:+ "-" +:+ pretty now.
Proof.
  exists (replace_spaces false (toLowerCase name)). unfold make_cityId.
  split; [reflexivity|]. split; [apply replace_spaces_no_space|].
  split; [apply replace_spaces_no_upper, toLowerCase_no_upper|].
  intros other Hv. now rewrite (case_variant_lower _ _ Hv).
Qed.

(** ** Invariants of the table, in general *)

Section TableInvariant.

Variable P : string * string -> item -> Prop.

Hypothesis P_pending : forall cityId cityName countryCode t k,
  item_key (pending_record cityId cityName countryCode (iso_of_time t))
  = Some k ->
  P k (pending_record cityId cityName countryCode (iso_of_time t)).

Hypothesis P_enriched : forall pd weatherData t k,
  item_key (enriched_record pd weatherData (iso_of_time t)) = Some k ->
  P k (enriched_record pd weatherData (iso_of_time t)).

Hypothesis P_completed : forall pd description t k,
  item_key (completed_record pd description (iso_of_time t)) = Some k ->
  P k (completed_record pd description (iso_of_time t)).

Lemma keeps_unchanged {A} (c : M A) : table_unchanged c -> keeps P c.
Proof. intros H rt w G. now rewrite H. Qed.

Lemma keeps_bind {A B} (c : M A) (k : A -> M B) :
  keeps P c -> (forall a, keeps P (k a)) -> keeps P (bind c k).
Proof.
  intros Hc Hk rt w G. unfold bind. specialize (Hc rt w G).
  destruct (c rt w) as [[a|e] w1]; cbn in *; [|exact Hc].
  now apply Hk.
Qed.

Lemma keeps_try_catch {A} (c : M A) (h : thrown -> M A) :
  keeps P c -> (forall e, keeps P (h e)) -> keeps P (try_catch c h).
Proof.
  intros Hc Hh rt w G. unfold try_catch. specialize (Hc rt w G).
  destruct (c rt w) as [[a|e] w1]; cbn in *; [exact Hc|].
  now apply Hh.
Qed.

Lemma keeps_bind_now_iso {B} (k : string -> M B) :
  (forall t, keeps P (k (iso_of_time t))) -> keeps P (bind now_iso k).
Proof. intros Hk rt w G. exec. now apply Hk. Qed.

Lemma keeps_bind_marshall {B} data (k : item -> M B) :
  keeps P (k data) -> keeps P (bind (marshall data) k).
Proof.
  intros Hk rt w G. unfold bind.
  destruct (marshall_outcome data rt w) as [-> | [e ->]]; cbn;
    [now apply Hk|exact G].
Qed.

Lemma all_entries_insert t k it :
  all_entries P t -> P k it -> all_entries P (<[k := it]> t).
Proof.
  intros G E k' it'. rewrite lookup_insert.
  case_decide as Hk; [intros [= <-]; now subst k'|apply G].
Qed.

Lemma keeps_dynamodb_put it :
  (forall k, item_key it = Some k -> P k it) -> keeps P (dynamodb_put it).
Proof.
  intros E rt w G. exec. destruct (hd None (ddb_faults w)); exec; [exact G|].
  destruct (item_key it) as [k|]; exec; [|exact G].
  apply all_entries_insert; auto.
Qed.

Lemma keeps_updateProcessingStatus cityId status error :
  keeps P (updateProcessingStatus cityId status error).
Proof.
  intros rt w G.
  destruct (updateProcessingStatus_refused cityId status error rt w)
    as (w' & -> & Htable & _). cbn [snd]. now rewrite Htable.
Qed.

Ltac keeps_step :=
  first
    [ apply keeps_unchanged; solve [auto with preserves]
    | apply keeps_updateProcessingStatus
    | apply keeps_dynamodb_put; intros ? ?;
      first [ apply P_pending | apply P_enriched | apply P_completed ];
      assumption
    | apply keeps_bind_now_iso; intros ?
    | apply keeps_bind_marshall
    | apply keeps_bind; [|intros ?]
    | apply keeps_try_catch; [|intros ?]
    | match goal with
      | |- keeps _ (match ?x with _ => _ end) => destruct x
      | |- keeps _ (if ?b then _ else _) => destruct b
      end ].

Lemma keeps_processCityRequest body t :
  keeps P (processCityRequest body (iso_of_time t)).
Proof. unfold processCityRequest. cbv zeta. repeat keeps_step. Qed.

Lemma keeps_getProcessingStatus cityId : keeps P (getProcessingStatus cityId).
Proof. unfold getProcessingStatus. repeat keeps_step. Qed.

Lemma keeps_handler event : keeps P (handler event).
Proof.
  unfold handler. cbv zeta.
  repeat first [ apply keeps_processCityRequest
               | apply keeps_getProcessingStatus
               | keeps_step ].
Qed.

Lemma keeps_processWeatherRecord record : keeps P (processWeatherRecord record).
Proof.
  unfold processWeatherRecord, processWeatherRecord_try,
    processWeatherRecord_catch. cbv zeta.
  repeat keeps_step.
Qed.

Lemma keeps_processLLMRecord record : keeps P (processLLMRecord record).
Proof.
  unfold processLLMRecord, processLLMRecord_try, processLLMRecord_catch.
  cbv zeta. repeat keeps_step.
Qed.

Lemma keeps_for_each_record process records :
  (forall record, keeps P (process record)) ->
  keeps P (for_each_record process records).
Proof.
  intros H. induction records as [|record rest IH]; cbn [for_each_record].
  - apply keeps_unchanged. auto with preserves.
  - repeat keeps_step; auto.
Qed.

Lemma keeps_invoke i : keeps P (invoke i).
Proof.
  destruct i; cbn [invoke].
  - apply keeps_bind; [apply keeps_handler|].
    intros ?. apply keeps_unchanged. auto with preserves.
  - apply keeps_for_each_record, keeps_processWeatherRecord.
  - apply keeps_for_each_record, keeps_processLLMRecord.
Qed.

Lemma reachable_all_entries t : reachable t -> all_entries P t.
Proof.
  induction 1 as [|i rt w _ IH].
  - intros k it Hk. rewrite lookup_empty in Hk. discriminate.
  - now apply keeps_invoke.
Qed.

End TableInvariant.

(** ** The shape of the entries of a reachable table *)

Lemma entry_shape_put k it s :
  item_key it = Some k -> k.2 <> "latest" -> has_status s it ->
  In s put_statuses -> entry_shape k it.
Proof.
  intros Hk Hne Hs Hin. split; [exact Hne|]. split; [exact Hk|].
  exists s. auto.
Qed.

Lemma entry_shape_pending cityId cityName countryCode t k :
  item_key (pending_record cityId cityName countryCode (iso_of_time t))
  = Some k ->
  entry_shape k (pending_record cityId cityName countryCode (iso_of_time t)).
Proof.
  intros Hk. apply (entry_shape_put _ _ "pending"); [exact Hk| |reflexivity|].
  - rewrite item_key_pending in Hk. injection Hk as <-. cbn.
    apply iso_of_time_not_latest.
  - cbn. auto.
Qed.

Lemma entry_shape_enriched pd weatherData t k :
  item_key (enriched_record pd weatherData (iso_of_time t)) = Some k ->
  entry_shape k (enriched_record pd weatherData (iso_of_time t)).
Proof.
  intros Hk.
  apply (entry_shape_put _ _ "weather_processing"); [exact Hk| | |].
  - apply item_key_timestamp in Hk. rewrite Hk. apply iso_of_time_not_latest.
  - unfold has_status, enriched_record.
    rewrite !assoc_set_field_ne by discriminate. apply assoc_set_field_eq.
  - cbn. auto.
Qed.

Lemma entry_shape_completed pd description t k :
  item_key (completed_record pd description (iso_of_time t)) = Some k ->
  entry_shape k (completed_record pd description (iso_of_time t)).
Proof.
  intros Hk.
  apply (entry_shape_put _ _ "completed"); [exact Hk| | |].
  - apply item_key_timestamp in Hk. rewrite Hk. apply iso_of_time_not_latest.
  - unfold has_status, completed_record.
    rewrite !assoc_set_field_ne by discriminate. apply assoc_set_field_eq.
  - cbn. auto.
Qed.

Lemma reachable_entry_shape t : reachable t -> all_entries entry_shape t.
Proof.
  apply reachable_all_entries.
  - apply entry_shape_pending.
  - apply entry_shape_enriched.
  - apply entry_shape_completed.
Qed.

(** X11. No reachable table holds an entry under the sort key ["latest"],
    the key every status query reads and every status update addresses:
    the puts use the time of the write as sort key, and the store
    refuses the updates. *)
Theorem reachable_tables_hold_no_latest_entry
    (t : gmap (string * string) item) (cityId : string) :
  reachable t ->
  t !! (cityId, "latest") = None.
Proof.
  intros Hr. destruct (t !! (cityId, "latest")) as [it|] eqn:Hit;
    [|reflexivity].
  destruct (reachable_entry_shape t Hr _ _ Hit) as [Hne _].
  now destruct Hne.
Qed.

(** X13. In every reachable table, an entry under any other sort key sits
    under the key its own [cityId] and [timestamp] give and has status
    [pending], [weather_processing] or [completed]: no put ever stores a
    [failed] record. *)
Theorem put_entries_sit_under_their_own_key
    (t : gmap (string * string) item) (cityId timestamp : string) (it : item) :
  reachable t ->
  t !! (cityId, timestamp) = Some it ->
  timestamp <> "latest" ->
  item_key it = Some (cityId, timestamp) /\ status_among put_statuses it.
Proof.
  intros Hr Hit Hne. destruct (reachable_entry_shape t Hr _ _ Hit) as [_ Hp].
  exact Hp.
Qed.

(** X12. In a reachable state no status query is answered 200: whatever
    the job identifier, the answer is 500 when the store lookup fails and
    404 when it does not. *)
Theorem status_query_never_finds_a_job
    (rt : Runtime) (w : World) (jobId : string) :
  reachable (table w) ->
  exists r w',
    getProcessingStatus (VStr jobId) rt w = (Returned r, w')
    /\ statusCode r <> 200
    /\ (lookup_fails w -> statusCode r = 500)
    /\ (~ lookup_fails w -> statusCode r = 404).
Proof.
  intros Hr.
  destruct (status_query_outcomes rt w jobId)
    as (r & w' & Hrun & H500 & H404 & H200).
  exists r, w'. split; [exact Hrun|].
  assert (Hnone : table w !! (jobId, "latest") = None).
  { destruct (table w !! (jobId, "latest")) as [it|] eqn:Hit; [|reflexivity].
    destruct (reachable_entry_shape _ Hr _ _ Hit) as [Hne _].
    now destruct Hne. }
  split; [|split].
  - intros Hcode. apply H200 in Hcode as [_ [it Hit]].
    unfold item in *. congruence.
  - apply H500.
  - intros Hok. apply H404. split; [exact Hok|exact Hnone].
Qed.

(** The table left by the enrichment of the London job. *)
Lemma no_latest_entry_witness :
  table_after_enrichment !! (london_id, "latest") = None.
Proof.
  apply (reachable_tables_hold_no_latest_entry table_after_enrichment
           london_id).
  apply table_after_enrichment_reachable.
Defined.

Lemma put_entries_witness :
  item_key (enriched_record london_pending london_weather enrichment_timestamp)
  = Some (london_id, enrichment_timestamp)
  /\ status_among put_statuses
       (enriched_record london_pending london_weather enrichment_timestamp).
Proof.
  apply (put_entries_sit_under_their_own_key table_after_enrichment london_id
           enrichment_timestamp
           (enriched_record london_pending london_weather
              enrichment_timestamp)).
  - apply table_after_enrichment_reachable.
  - vm_compute. reflexivity.
  - discriminate.
Defined.

(** A status query for the London job after its enrichment. *)
Lemma status_query_witness :
  exists r w',
    getProcessingStatus (VStr london_id) (sample_runtime true true)
      world_after_enrichment = (Returned r, w')
    /\ statusCode r <> 200
    /\ (lookup_fails world_after_enrichment -> statusCode r = 500)
    /\ (~ lookup_fails world_after_enrichment -> statusCode r = 404).
Proof.
  apply (status_query_never_finds_a_job (sample_runtime true true)
           world_after_enrichment london_id).
  apply table_after_enrichment_reachable.
Defined.

(** ** [fetchWeatherData] *)

(** The configured credential: [process.env.OPENWEATHER_API_KEY], when it
    is set and not empty. *)
Lemma fetchWeatherData_request cityName countryCode rt w key :
  process_env rt OPENWEATHER_API_KEY = Some key ->
  key <> "" ->
  fetchWeatherData cityName countryCode rt w =
    match fetch rt (weather_url rt cityName countryCode key) with
    | inl e => (Threw e, w)
    | inr response =>
        if negb (ok response) then
          (Threw (Error ("Weather API error: " +:+ pretty (status response)
                         +:+ " " +:+ statusText response)), w)
        else
          (data <- lift_result (json response) ;;
           main <- prop data "main" ;;
           temp <- prop main "temp" ;;
           humidity <- prop main "humidity" ;;
           weather <- prop data "weather" ;;
           weather0 <- first_element weather ;;
           description <- prop weather0 "description" ;;
           wind <- prop data "wind" ;;
           speed <- prop wind "speed" ;;
           pressure <- prop main "pressure" ;;
           visibility <- prop data "visibility" ;;
           sys <- prop data "sys" ;;
           sunrise_s <- prop sys "sunrise" ;;
           sunrise <- seconds_toISOString sunrise_s ;;
           sunset_s <- prop sys "sunset" ;;
           sunset <- seconds_toISOString sunset_s ;;
           ret (VObj [("temperature", temp); ("humidity", humidity);
                      ("description", description); ("windSpeed", speed);
                      ("pressure", pressure); ("visibility", visibility);
                      ("sunrise", VStr sunrise); ("sunset", VStr sunset)]))
            rt w
    end.
Proof.
  intros Hkey Hne. unfold fetchWeatherData, weather_url, weather_location.
  unfold bind at 1. unfold getenv. rewrite Hkey.
  destruct key as [|c key]; [congruence|].
  destruct (truthy countryCode); exec;
    (destruct (fetch rt _) as [e|response]; exec; [reflexivity|]);
    destruct (ok response); reflexivity.
Qed.

(** X14. Without the weather credential (unset or empty),
    [fetchWeatherData] throws the configuration error and the world is as
    it was; the provider is not asked. *)
Theorem fetchWeatherData_without_credential
    (rt : Runtime) (w : World) (cityName countryCode : value) :
  process_env rt OPENWEATHER_API_KEY = None
  \/ process_env rt OPENWEATHER_API_KEY = Some "" ->
  fetchWeatherData cityName countryCode rt w
  = (Threw (Error "OpenWeather API key not configured"), w).
Proof.
  intros [H|H]; unfold fetchWeatherData; exec; rewrite H; reflexivity.
Qed.

Lemma fetchWeatherData_without_credential_witness :
  fetchWeatherData (VStr "London") (VStr "GB") (sample_runtime false true)
    (fresh_world [])
  = (Threw (Error "OpenWeather API key not configured"), fresh_world []).
Proof.
  apply (fetchWeatherData_without_credential (sample_runtime false true)
           (fresh_world []) (VStr "London") (VStr "GB")).
  left. reflexivity.
Defined.

(** X15. When the provider answers the request for
    [q=<city>,<country>] (or [q=<city>] without a country) with a status
    that is not ok, [fetchWeatherData] throws
    [Weather API error: <status> <statusText>]. *)
Theorem fetchWeatherData_http_error
    (rt : Runtime) (w : World) (cityName countryCode : value)
    (key : string) (response : Response) :
  process_env rt OPENWEATHER_API_KEY = Some key ->
  key <> "" ->
  fetch rt (weather_url rt cityName countryCode key) = inr response ->
  ok response = false ->
  fetchWeatherData cityName countryCode rt w
  = (Threw (Error ("Weather API error: " +:+ pretty (status response)
                   +:+ " " +:+ statusText response)), w).
Proof.
  intros Hkey Hne Hfetch Hok.
  rewrite (fetchWeatherData_request _ _ _ _ _ Hkey Hne), Hfetch, Hok.
  reflexivity.
Qed.

(** A runtime with the weather credential whose provider answers 404. *)
Lemma fetchWeatherData_http_error_witness :
  let rt :=
    {| JSON_parse := lookup_doc sample_docs;
       JSON_stringify := sample_stringify;
       encodeURIComponent := fun s => s;
       String_of := fun _ => "";
       Number_of := fun _ => None;
       process_env := sample_env true true;
       process_uptime := 0;
       fetch := fun _ =>
         inr {| ok := false; status := 404; statusText := "Not Found";
                json := inl service_unavailable |};
       unsafe_number_message := sample_unsafe_number_message |} in
  fetchWeatherData (VStr "Atlantis") VUndef rt (fresh_world [])
  = (Threw (Error ("Weather API error: " +:+ pretty 404 +:+ " "
                   +:+ "Not Found")), fresh_world []).
Proof.
  cbv zeta.
  apply (fetchWeatherData_http_error _ (fresh_world []) (VStr "Atlantis")
           VUndef "weather-key"
           {| ok := false; status := 404; statusText := "Not Found";
              json := inl service_unavailable |}).
  - reflexivity.
  - discriminate.
  - reflexivity.
  - reflexivity.
Defined.

(** X16. On an ok response whose body has the shape of
    [OpenWeatherResponse], with at least one weather entry and sunrise and
    sunset instants that are valid dates, [fetchWeatherData] returns the
    eight fields of [WeatherData]: the description of the first weather
    entry, the numbers as received, and the two instants as ISO strings of
    the product seconds times 1000, a binary64 product. *)
Theorem fetchWeatherData_maps_the_observation
    (rt : Runtime) (w : World) (cityName countryCode : value) (key : string)
    (response : Response)
    (temp humidity pressure speed visibility : value)
    (first : list (string * value)) (others : list value)
    (sunrise sunset sunrise_ms sunset_ms : Q)
    (sunrise_iso sunset_iso : string) :
  process_env rt OPENWEATHER_API_KEY = Some key ->
  key <> "" ->
  fetch rt (weather_url rt cityName countryCode key) = inr response ->
  ok response = true ->
  json response =
    inr (observation temp humidity pressure (VObj first :: others) speed
           visibility sunrise sunset) ->
  times sunrise 1000 = Some sunrise_ms ->
  times sunset 1000 = Some sunset_ms ->
  toISOString (time_of_number sunrise_ms) = Some sunrise_iso ->
  toISOString (time_of_number sunset_ms) = Some sunset_iso ->
  fetchWeatherData cityName countryCode rt w
  = (Returned
       (VObj [("temperature", temp); ("humidity", humidity);
              ("description", field "description" (VObj first));
              ("windSpeed", speed); ("pressure", pressure);
              ("visibility", visibility);
              ("sunrise", VStr sunrise_iso); ("sunset", VStr sunset_iso)]),
     w).
Proof.
  intros Hkey Hne Hfetch Hok Hjson Hmr Hms Hsr Hss.
  rewrite (fetchWeatherData_request _ _ _ _ _ Hkey Hne), Hfetch, Hok.
  cbn [negb]. exec. rewrite Hjson. unfold observation, prop, first_element.
  exec. unfold seconds_toISOString, to_number, date_toISOString. exec.
  rewrite Hmr. exec. rewrite Hsr. exec. rewrite Hms. exec.
  rewrite Hss. reflexivity.
Qed.

Lemma fetchWeatherData_maps_witness :
  fetchWeatherData (VStr "London") (VStr "GB") (sample_runtime true true)
    (fresh_world [])
  = (Returned
       (VObj [("temperature", VNum 15); ("humidity", VNum 65);
              ("description",
               field "description"
                 (VObj [("description", VStr "scattered clouds")]));
              ("windSpeed", VNum 3); ("pressure", VNum 1013);
              ("visibility", VNum 10000);
              ("sunrise", VStr "2024-01-01T08:15:00.000Z");
              ("sunset", VStr "2024-01-01T17:45:00.000Z")]),
     fresh_world []).
Proof.
  apply (fetchWeatherData_maps_the_observation (sample_runtime true true)
           (fresh_world []) (VStr "London") (VStr "GB") "weather-key"
           {| ok := true; status := 200; statusText := "OK";
              json := inr london_weather_response |}
           (VNum 15) (VNum 65) (VNum 1013) (VNum 3) (VNum 10000)
           [("description", VStr "scattered clouds")] []
           1704096900 1704131100 1704096900000 1704131100000).
  - reflexivity.
  - discriminate.
  - reflexivity.
  - reflexivity.
  - reflexivity.
  - vm_compute. reflexivity.
  - vm_compute. reflexivity.
  - vm_compute. reflexivity.
  - vm_compute. reflexivity.
Defined.

(** X17. On an ok response of that shape whose [weather] array is empty,
    [fetchWeatherData] throws a [TypeError]: reading [description] of the
    missing first entry. *)
Theorem fetchWeatherData_empty_weather
    (rt : Runtime) (w : World) (cityName countryCode : value) (key : string)
    (response : Response)
    (temp humidity pressure speed visibility : value) (sunrise sunset : Q) :
  process_env rt OPENWEATHER_API_KEY = Some key ->
  key <> "" ->
  fetch rt (weather_url rt cityName countryCode key) = inr response ->
  ok response = true ->
  json response =
    inr (observation temp humidity pressure [] speed visibility sunrise
           sunset) ->
  fetchWeatherData cityName countryCode rt w
  = (Threw (TypeError
              "Cannot read properties of undefined (reading 'description')"),
     w).
Proof.
  intros Hkey Hne Hfetch Hok Hjson.
  rewrite (fetchWeatherData_request _ _ _ _ _ Hkey Hne), Hfetch, Hok.
  cbn [negb]. exec. rewrite Hjson. reflexivity.
Qed.

Lemma fetchWeatherData_empty_weather_witness :
  let rt :=
    {| JSON_parse := lookup_doc sample_docs;
       JSON_stringify := sample_stringify;
       encodeURIComponent := fun s => s;
       String_of := fun _ => "";
       Number_of := fun _ => None;
       process_env := sample_env true true;
       process_uptime := 0;
       fetch := fun _ =>
         inr {| ok := true; status := 200; statusText := "OK";
                json := inr (observation (VNum 1) (VNum 2) (VNum 3) []
                               (VNum 4) (VNum 5) 6 7) |};
       unsafe_number_message := sample_unsafe_number_message |} in
  fetchWeatherData (VStr "London") VUndef rt (fresh_world [])
  = (Threw (TypeError
              "Cannot read properties of undefined (reading 'description')"),
     fresh_world []).
Proof.
  cbv zeta.
  apply (fetchWeatherData_empty_weather _ (fresh_world []) (VStr "London")
           VUndef "weather-key"
           {| ok := true; status := 200; statusText := "OK";
              json := inr (observation (VNum 1) (VNum 2) (VNum 3) []
                             (VNum 4) (VNum 5) 6 7) |}
           (VNum 1) (VNum 2) (VNum 3) (VNum 4) (VNum 5) 6 7).
  - reflexivity.
  - discriminate.
  - reflexivity.
  - reflexivity.
  - reflexivity.
Defined.

(** ** [updateProcessingStatus] on a string identifier *)


(** X18. [updateProcessingStatus] never throws and never uses a queue or
    the topic, whatever the identifier it is given and whatever the store
    answers. *)
Theorem updateProcessingStatus_never_throws
    (cityId : value) (status : string) (error : option string)
    (rt : Runtime) (w : World) :
  let run := updateProcessingStatus cityId status error rt w in
  fst run = Returned tt
  /\ sqs_faults (snd run) = sqs_faults w
  /\ sns_faults (snd run) = sns_faults w
  /\ forall e, In e (log (snd run)) ->
               In e (log w) \/ exists k sets, e = UpdateItem k sets.
Proof.
  cbv zeta.
  destruct (updateProcessingStatus_spec cityId status error rt w)
    as (w' & -> & Hsqs & Hsns & Hupd). cbn [fst snd].
  repeat split; try assumption.
  intros e He. destruct Hupd as [[_ Hlog]|(c & _ & Hlog & _)].
  - left. now rewrite <- Hlog.
  - rewrite Hlog, in_app_iff in He. destruct He as [He|[<-|[]]]; eauto.
Qed.

(** X19. When the store refuses the request, or the identifier is not a
    string, [updateProcessingStatus] still returns, and the table and the
    log of effects are as before: the failure is swallowed. *)
Theorem updateProcessingStatus_swallows_failure
    (cityId : value) (status : string) (error : option string)
    (rt : Runtime) (w : World) :
  lookup_fails w \/ (forall c, cityId <> VStr c) ->
  let run := updateProcessingStatus cityId status error rt w in
  fst run = Returned tt /\ table (snd run) = table w /\ log (snd run) = log w.
Proof.
  intros _. cbv zeta.
  destruct (updateProcessingStatus_refused cityId status error rt w)
    as (w' & -> & Htable & Hlog & _). cbn [fst snd]. auto.
Qed.

Lemma updateProcessingStatus_swallows_witness :
  let run := updateProcessingStatus (VStr london_id) "failed" (Some "boom")
               (sample_runtime true true)
               (world ∅ [Some service_unavailable] [] [] []) in
  fst run = Returned tt /\ table (snd run) = ∅ /\ log (snd run) = [].
Proof.
  apply (updateProcessingStatus_swallows_failure (VStr london_id) "failed"
           (Some "boom") (sample_runtime true true)
           (world ∅ [Some service_unavailable] [] [] [])).
  left. exists service_unavailable. reflexivity.
Defined.

(** X20. [updateProcessingStatus] never writes: whatever the identifier,
    the status, the error text and the answers of the store, it returns
    with the table and the log of effects as they were, after one reading
    of the clock.  Its update expression assigns [#timestamp], the sort
    key of the table, which the store refuses, and the refusal is
    swallowed like any other failure. *)
Theorem updateProcessingStatus_never_writes
    (cityId : value) (status : string) (error : option string)
    (rt : Runtime) (w : World) :
  exists w',
    updateProcessingStatus cityId status error rt w = (Returned tt, w')
    /\ table w' = table w
    /\ log w' = log w
    /\ clock w' = tl (clock w).
Proof.
  destruct (updateProcessingStatus_refused cityId status error rt w)
    as (w' & Hrun & Htable & Hlog & _ & _ & Hclock).
  exists w'. auto.
Qed.

(** ** The queue consumers when every service answers *)









#[local] Arguments marshall : simpl never.





(** ** The requests each function makes *)

Lemma status_sets_status status error ts :
  assoc "status" (status_sets status error ts) = Some (VStr status).
Proof. reflexivity. Qed.

Section Effects.

Variable Q : Runtime -> effect -> Prop.

Lemma emits_silent {A} (c : M A) :
  (forall rt w, log (snd (c rt w)) = log w) -> emits Q c.
Proof.
  intros H rt w. exists []. split; [|constructor].
  unfold appended. now rewrite H, app_nil_r.
Qed.

Lemma emits_reads_only {A} (c : M A) : reads_only c -> emits Q c.
Proof. intros H. apply emits_silent. intros rt w. now rewrite H. Qed.

Lemma emits_bind {A B} (c : M A) (k : A -> M B) :
  emits Q c -> (forall a, emits Q (k a)) -> emits Q (bind c k).
Proof.
  intros Hc Hk rt w. unfold bind.
  destruct (Hc rt w) as (new1 & H1 & F1).
  destruct (c rt w) as [[a|e] w1]; cbn [snd] in *; [|eauto].
  destruct (Hk a rt w1) as (new2 & H2 & F2).
  exists (new1 ++ new2)%list. split; [|now apply Forall_app].
  unfold appended in *. now rewrite H2, H1, app_assoc.
Qed.

Lemma emits_try_catch {A} (c : M A) (h : thrown -> M A) :
  emits Q c -> (forall e, emits Q (h e)) -> emits Q (try_catch c h).
Proof.
  intros Hc Hh rt w. unfold try_catch.
  destruct (Hc rt w) as (new1 & H1 & F1).
  destruct (c rt w) as [[a|e] w1]; cbn [snd] in *; [eauto|].
  destruct (Hh e rt w1) as (new2 & H2 & F2).
  exists (new1 ++ new2)%list. split; [|now apply Forall_app].
  unfold appended in *. now rewrite H2, H1, app_assoc.
Qed.

Lemma emits_record_effect e :
  (forall rt, Q rt e) -> emits Q (record_effect e).
Proof.
  intros H rt w. exists [e]. split; [reflexivity|]. constructor; auto.
Qed.

Lemma emits_Date_now : emits Q Date_now.
Proof. now apply emits_silent. Qed.

Lemma emits_now_iso : emits Q now_iso.
Proof. now apply emits_silent. Qed.

Lemma emits_ddb_call : emits Q ddb_call.
Proof. now apply emits_silent. Qed.

Lemma emits_sqs_call : emits Q sqs_call.
Proof. now apply emits_silent. Qed.

Lemma emits_sns_call : emits Q sns_call.
Proof. now apply emits_silent. Qed.

Lemma emits_write_table k it : emits Q (write_table k it).
Proof. now apply emits_silent. Qed.

Lemma emits_read_table k : emits Q (read_table k).
Proof. now apply emits_silent. Qed.

Lemma emits_json_parse s : emits Q (json_parse s).
Proof.
  apply emits_silent. intros rt w. unfold json_parse.
  destruct (JSON_parse rt s); reflexivity.
Qed.

Lemma emits_json_stringify v : emits Q (json_stringify v).
Proof. now apply emits_silent. Qed.

Lemma emits_createResponse n v : emits Q (createResponse n v).
Proof. now apply emits_silent. Qed.

Lemma emits_dynamodb_put it :
  (forall rt, Q rt (PutItem it)) -> emits Q (dynamodb_put it).
Proof.
  intros H rt w. exec. destruct (hd None (ddb_faults w)); exec.
  { exists []. split; [symmetry; apply app_nil_r|constructor]. }
  destruct (item_key it); exec.
  - exists [PutItem it]. split; [reflexivity|]. constructor; auto.
  - exists []. split; [symmetry; apply app_nil_r|constructor].
Qed.

Lemma emits_sqs_send queue body attrs :
  (forall rt, Q rt (SendMessage (process_env rt queue) body attrs)) ->
  emits Q (sqs_send queue body attrs).
Proof.
  intros H rt w. exec. destruct (hd None (sqs_faults w)); exec.
  - exists []. split; [symmetry; apply app_nil_r|constructor].
  - eexists [_]. split; [reflexivity|]. constructor; auto.
Qed.

Lemma emits_sqs_delete queue receipt :
  (forall rt, Q rt (DeleteMessage (process_env rt queue) receipt)) ->
  emits Q (sqs_delete queue receipt).
Proof.
  intros H rt w. exec. destruct (hd None (sqs_faults w)); exec.
  - exists []. split; [symmetry; apply app_nil_r|constructor].
  - eexists [_]. split; [reflexivity|]. constructor; auto.
Qed.

Lemma emits_sns_publish subject message :
  (forall rt, Q rt (Publish (process_env rt NOTIFICATION_TOPIC_ARN)
                      subject message)) ->
  emits Q (sns_publish subject message).
Proof.
  intros H rt w. exec. destruct (hd None (sns_faults w)); exec.
  - exists []. split; [symmetry; apply app_nil_r|constructor].
  - eexists [_]. split; [reflexivity|]. constructor; auto.
Qed.

Lemma emits_updateProcessingStatus cityId status error :
  (forall rt c ts,
      Q rt (UpdateItem (c, "latest") (status_sets status error ts))) ->
  emits Q (updateProcessingStatus cityId status error).
Proof.
  intros H rt w.
  destruct (updateProcessingStatus_spec cityId status error rt w)
    as (w' & -> & _ & _ & [[_ Hlog]|(c & _ & Hlog & _)]); cbn [snd].
  - exists []. split; [|constructor]. unfold appended.
    now rewrite Hlog, app_nil_r.
  - eexists [_]. split; [exact Hlog|]. constructor; auto.
Qed.

Lemma emits_for_each_record process records :
  (forall record, emits Q (process record)) ->
  emits Q (for_each_record process records).
Proof.
  intros H. induction records as [|record rest IH]; cbn [for_each_record].
  - now apply emits_silent.
  - apply emits_bind; [|intros ?; exact IH].
    apply emits_try_catch; [apply H|]. intros ?. now apply emits_silent.
Qed.

End Effects.

Create HintDb emits.
#[local] Hint Resolve emits_now_iso emits_json_parse emits_json_stringify
  emits_createResponse : emits.

Ltac emits_step :=
  first
    [ solve [auto with emits]
    | apply emits_reads_only; solve [auto with reads_only]
    | apply emits_updateProcessingStatus; intros ? ? ?; cbn;
      (split; [reflexivity|]); rewrite status_sets_status; solve [auto]
    | apply emits_dynamodb_put; intros ?; cbn; assumption
    | apply emits_sqs_send; intros ?; reflexivity
    | apply emits_sqs_delete; intros ?; reflexivity
    | apply emits_sns_publish; intros ?; cbn; solve [auto]
    | apply emits_bind; [|intros ?]
    | apply emits_try_catch; [|intros ?]
    | match goal with
      | |- emits _ (match ?x with _ => _ end) => destruct x
      | |- emits _ (if ?b then _ else _) => destruct b
      end ].

#[local] Hint Resolve emits_Date_now emits_ddb_call emits_sqs_call
  emits_sns_call emits_write_table emits_read_table : emits.

Lemma emits_bind_marshall {B} Q data (k : item -> M B) :
  emits Q (k data) -> emits Q (bind (marshall data) k).
Proof.
  intros Hk rt w. unfold bind.
  destruct (marshall_outcome data rt w) as [-> | [e ->]]; cbn [snd];
    [apply Hk|].
  exists []. split; [symmetry; apply app_nil_r|constructor].
Qed.

Lemma has_status_pending cityId cityName countryCode timestamp :
  has_status "pending" (pending_record cityId cityName countryCode timestamp).
Proof. reflexivity. Qed.

Lemma has_status_enriched pd wd ts :
  has_status "weather_processing" (enriched_record pd wd ts).
Proof.
  unfold has_status, enriched_record.
  rewrite !assoc_set_field_ne by discriminate. apply assoc_set_field_eq.
Qed.

Lemma has_status_completed pd d ts :
  has_status "completed" (completed_record pd d ts).
Proof.
  unfold has_status, completed_record.
  rewrite !assoc_set_field_ne by discriminate. apply assoc_set_field_eq.
Qed.

Ltac emits_put :=
  apply emits_bind_marshall; apply emits_bind;
  [ apply emits_dynamodb_put; intros ?; cbn;
    first [ apply has_status_pending | apply has_status_enriched
          | apply has_status_completed ]
  | intros ? ].

Lemma emits_processCityRequest body timestamp :
  emits city_effect (processCityRequest body timestamp).
Proof.
  unfold processCityRequest. cbv zeta.
  repeat first [emits_put | emits_step].
Qed.

Lemma emits_getProcessingStatus cityId :
  emits city_effect (getProcessingStatus cityId).
Proof.
  unfold getProcessingStatus, dynamodb_get. repeat emits_step.
Qed.

Lemma emits_handler event : emits city_effect (handler event).
Proof.
  unfold handler. cbv zeta.
  repeat first [ apply emits_processCityRequest
               | apply emits_getProcessingStatus
               | emits_step ].
Qed.

Lemma emits_processWeatherRecord record :
  emits weather_effect (processWeatherRecord record).
Proof.
  unfold processWeatherRecord, processWeatherRecord_try,
    processWeatherRecord_catch. cbv zeta.
  repeat first [emits_put | emits_step].
Qed.

Lemma emits_processLLMRecord record :
  emits llm_effect (processLLMRecord record).
Proof.
  unfold processLLMRecord, processLLMRecord_try, processLLMRecord_catch.
  cbv zeta. repeat first [emits_put | emits_step].
Qed.


(** X23. Whatever the request and whatever the services answer, the
    effects of the intake [handler], that is its successful requests that
    write, send or publish, are puts of [pending] records, messages to the
    queue of [CITY_QUEUE_URL] and publications with subject
    [City Processing Started]: it never updates an item and never deletes
    a message.  (The [GetItem] of a status query reads the table and is
    not an effect.) *)
Theorem intake_handler_effects
    (event : APIGatewayProxyEvent) (rt : Runtime) (w : World) :
  exists new,
    appended w (snd (handler event rt w)) new
    /\ Forall (city_effect rt) new.
Proof. apply emits_handler. Qed.



Lemma weather_environment_has_no_queue rt :
  defines_only weather_processor_environment rt ->
  process_env rt LLM_QUEUE_URL = None
  /\ process_env rt WEATHER_QUEUE_URL = None.
Proof.
  intros H. split; apply H; cbn; intros [E|[E|[E|[E|[]]]]]; discriminate E.
Qed.

Lemma llm_environment_has_no_queue rt :
  defines_only llm_processor_environment rt ->
  process_env rt LLM_QUEUE_URL = None.
Proof.
  intros H. apply H; cbn; intros [E|[E|[E|[]]]]; discriminate E.
Qed.

(** X26. Under the environment the stack gives the enrichment function,
    which defines neither [WEATHER_QUEUE_URL] nor [LLM_QUEUE_URL], every
    message the enrichment [handler] sends and every deletion it requests
    names no queue. *)
Theorem deployed_enrichment_names_no_queue
    (records : list SQSRecord) (rt : Runtime) (w : World) :
  defines_only weather_processor_environment rt ->
  exists new,
    appended w (snd (weather_handler records rt w)) new
    /\ Forall names_no_queue new.
Proof.
  intros Henv.
  destruct (weather_environment_has_no_queue rt Henv) as [Hllm Hweather].
  destruct (emits_for_each_record weather_effect processWeatherRecord records
              emits_processWeatherRecord rt w) as (new & Happ & Hall).
  exists new. split; [exact Happ|].
  eapply Forall_impl; [exact Hall|].
  intros [] He; cbn in *; congruence || exact I.
Qed.

(** X27. Under the environment the stack gives the description function,
    which does not define [LLM_QUEUE_URL], every deletion the description
    [handler] requests names no queue. *)
Theorem deployed_description_names_no_queue
    (records : list SQSRecord) (rt : Runtime) (w : World) :
  defines_only llm_processor_environment rt ->
  exists new,
    appended w (snd (llm_handler records rt w)) new
    /\ Forall names_no_queue new.
Proof.
  intros Henv. pose proof (llm_environment_has_no_queue rt Henv) as Hllm.
  destruct (emits_for_each_record llm_effect processLLMRecord records
              emits_processLLMRecord rt w) as (new & Happ & Hall).
  exists new. split; [exact Happ|].
  eapply Forall_impl; [exact Hall|].
  intros [] He; cbn in *; congruence || exact I || contradiction.
Qed.

Lemma for_each_record_skip process record rest rt w e :
  process record rt w = (Threw e, w) ->
  for_each_record process (record :: rest) rt w
  = for_each_record process rest rt w.
Proof.
  intros H. cbn [for_each_record]. unfold bind, try_catch. now rewrite H.
Qed.

Lemma processWeatherRecord_passes_over rt w record :
  match JSON_parse rt (record_body record) with
  | inl _ => True
  | inr pd => is_nullish pd = true
  end ->
  exists e, processWeatherRecord record rt w = (Threw e, w).
Proof.
  destruct (JSON_parse rt (record_body record)) as [e|pd] eqn:Hparse.
  - intros _. exists e. now apply processWeatherRecord_undecodable.
  - intros Hnull. unfold processWeatherRecord, processWeatherRecord_try,
      processWeatherRecord_catch. exec. rewrite Hparse.
    destruct pd; try discriminate Hnull; cbn; eexists; reflexivity.
Qed.

Lemma processLLMRecord_passes_over rt w record :
  match JSON_parse rt (record_body record) with
  | inl _ => True
  | inr pd => is_nullish pd = true
  end ->
  exists e, processLLMRecord record rt w = (Threw e, w).
Proof.
  destruct (JSON_parse rt (record_body record)) as [e|pd] eqn:Hparse.
  - intros _. exists e. now apply processLLMRecord_undecodable.
  - intros Hnull. unfold processLLMRecord, processLLMRecord_try,
      processLLMRecord_catch. exec. rewrite Hparse.
    destruct pd; try discriminate Hnull; cbn; eexists; reflexivity.
Qed.

(** X28. A batch whose every body fails to decode or decodes to [null] is
    passed over by both queue consumers: the handler returns and the world
    is as it was, no status written, nothing published, no message
    deleted. *)
Theorem consumers_pass_over_undecodable_and_null
    (records : list SQSRecord) (rt : Runtime) (w : World) :
  Forall (fun record =>
            match JSON_parse rt (record_body record) with
            | inl _ => True
            | inr pd => is_nullish pd = true
            end) records ->
  weather_handler records rt w = (Returned tt, w)
  /\ llm_handler records rt w = (Returned tt, w).
Proof.
  unfold weather_handler, llm_handler.
  induction 1 as [|record rest Hrecord _ [IHw IHl]]; [split; reflexivity|].
  destruct (processWeatherRecord_passes_over rt w record Hrecord) as [e1 H1].
  destruct (processLLMRecord_passes_over rt w record Hrecord) as [e2 H2].
  now rewrite (for_each_record_skip _ _ _ _ _ _ H1),
    (for_each_record_skip _ _ _ _ _ _ H2).
Qed.

Lemma deployed_runtime_defines_only names :
  defines_only names (deployed_runtime names).
Proof.
  intros name Hname. cbn [process_env deployed_runtime].
  destruct (existsb (String.eqb name) names) eqn:E; [|reflexivity].
  apply existsb_exists in E as (n & Hin & Heq).
  apply String.eqb_eq in Heq. now subst n.
Qed.

Lemma deployed_enrichment_witness :
  exists new,
    appended (fresh_world enrichment_times)
      (snd (weather_handler [london_record]
              (deployed_runtime weather_processor_environment)
              (fresh_world enrichment_times))) new
    /\ Forall names_no_queue new.
Proof.
  apply (deployed_enrichment_names_no_queue [london_record]
           (deployed_runtime weather_processor_environment)
           (fresh_world enrichment_times)).
  apply deployed_runtime_defines_only.
Defined.

Lemma deployed_description_witness :
  exists new,
    appended (fresh_world description_times)
      (snd (llm_handler [london_enriched_record]
              (deployed_runtime llm_processor_environment)
              (fresh_world description_times))) new
    /\ Forall names_no_queue new.
Proof.
  apply (deployed_description_names_no_queue [london_enriched_record]
           (deployed_runtime llm_processor_environment)
           (fresh_world description_times)).
  apply deployed_runtime_defines_only.
Defined.

Lemma consumers_pass_over_witness :
  weather_handler unusable_records (sample_runtime true true)
    (fresh_world []) = (Returned tt, fresh_world [])
  /\ llm_handler unusable_records (sample_runtime true true)
       (fresh_world []) = (Returned tt, fresh_world []).
Proof.
  apply (consumers_pass_over_undecodable_and_null unusable_records
           (sample_runtime true true) (fresh_world [])).
  repeat (constructor; [vm_compute; auto|]). constructor.
Defined.

(** ** index.ts *)

Ltac index_done :=
  eexists _, _; (split; [reflexivity|]); cbn; auto 15.

(** X29. The REST stub of index.ts always answers, with status 200, 201,
    404, 405 or 500 and the CORS headers, and it uses no service: the
    table, the log of effects and the fault schedules are as before. *)
Theorem index_handler_answers_without_effects
    (rt : Runtime) (w : World) (event : Index.Event) :
  exists r w',
    Index.handler event rt w = (Returned r, w')
    /\ In (statusCode r) [200; 201; 404; 405; 500]
    /\ headers r = cors_headers
    /\ table w' = table w /\ log w' = log w
    /\ ddb_faults w' = ddb_faults w /\ sqs_faults w' = sqs_faults w
    /\ sns_faults w' = sns_faults w.
Proof.
  unfold Index.handler, Index.handleApiV1, Index.handleUsersEndpoint,
    Index.parse_or_empty.
  destruct event as [method path params query body]. exec.
  repeat (match goal with
          | |- context [if ?b then _ else _] => destruct b
          end; exec).
  all: try index_done.
  all: destruct body as [[|c b]|]; exec; try index_done.
  all: destruct (JSON_parse rt (String c b)); exec; index_done.
Qed.

Lemma assoc_absent k fs : k ∉ map fst fs -> assoc k fs = None.
Proof.
  induction fs as [|[k' v'] fs IH]; cbn; [reflexivity|].
  rewrite not_elem_of_cons. intros [Hne Hfs].
  apply String.eqb_neq in Hne. rewrite Hne. auto.
Qed.

Lemma assoc_assign k base fs :
  NoDup (map fst fs) ->
  assoc k (assign base fs)
  = match assoc k fs with
    | Some v => Some v
    | None => assoc k base
    end.
Proof.
  unfold assign. revert base.
  induction fs as [|[k' v'] fs IH]; intros base Hnd; cbn; [reflexivity|].
  cbn in Hnd. apply NoDup_cons in Hnd as [Hk' Hnd].
  rewrite (IH _ Hnd). destruct (String.eqb k k') eqn:E.
  - apply String.eqb_eq in E. subst k'.
    rewrite (assoc_absent _ _ Hk'). apply assoc_set_field_eq.
  - apply String.eqb_neq in E. destruct (assoc k fs); [reflexivity|].
    now apply assoc_set_field_ne.
Qed.

(** X30. A POST to [/api/v1/users] whose body decodes to an object is
    answered 201 with a user that has every property of the body: an [id]
    in the body replaces the generated one, which is the time in
    milliseconds, while [createdAt] is always the time of the request,
    whatever the body says. *)
Theorem index_created_user_fields
    (rt : Runtime) (w : World) (event : Index.Event) (b : string)
    (fs : list (string * value)) :
  Index.httpMethod event = "POST" ->
  Index.path event = "/api/v1/users" ->
  Index.body event = Some b ->
  b <> "" ->
  JSON_parse rt b = inr (VObj fs) ->
  NoDup (map fst fs) ->
  let timestamp := reading 0 w in
  exists user,
    fst (Index.handler event rt w)
    = Returned
        {| statusCode := 201; headers := cors_headers;
           response_body :=
             JSON_stringify rt
               (Index.envelope "User created successfully" timestamp
                  "/api/v1/users" "POST" [("user", user)]) |}
    /\ field "createdAt" user = VStr timestamp
    /\ field "id" user
       = default (VStr (pretty (hd 0 (tl (clock w))))) (assoc "id" fs)
    /\ forall k, k <> "id" -> k <> "createdAt" ->
                 field k user = field k (VObj fs).
Proof.
  destruct event as [method path params query body]. cbn.
  intros -> -> -> Hb Hparse Hnd.
  exists (VObj (Index.created_user (hd 0 (tl (clock w))) (VObj fs)
                  (reading 0 w))).
  split.
  - unfold Index.handler, Index.handleApiV1, Index.handleUsersEndpoint,
      Index.parse_or_empty. exec.
    destruct b as [|c b]; [congruence|]. exec. rewrite Hparse. reflexivity.
  - unfold Index.created_user, field. cbn [spread].
    split; [now rewrite assoc_set_field_eq|]. split.
    + rewrite assoc_set_field_ne, assoc_assign by (assumption || discriminate).
      cbn. now destruct (assoc "id" fs).
    + intros k Hid Hc.
      rewrite assoc_set_field_ne, assoc_assign by assumption.
      destruct (assoc k fs); [reflexivity|]. cbn.
      apply String.eqb_neq in Hid. now rewrite Hid.
Qed.

Lemma index_created_user_witness :
  let timestamp := reading 0 (fresh_world [london_time; london_time + 1]) in
  exists user,
    fst (Index.handler (post_users user_request) users_runtime
           (fresh_world [london_time; london_time + 1]))
    = Returned
        {| statusCode := 201; headers := cors_headers;
           response_body :=
             JSON_stringify users_runtime
               (Index.envelope "User created successfully" timestamp
                  "/api/v1/users" "POST" [("user", user)]) |}
    /\ field "createdAt" user = VStr timestamp
    /\ field "id" user
       = default
           (VStr (pretty (hd 0 (tl (clock (fresh_world
                                             [london_time;
                                              london_time + 1]))))))
           (assoc "id" [("id", VStr "42"); ("name", VStr "Ada");
                        ("createdAt", VStr "yesterday")])
    /\ forall k, k <> "id" -> k <> "createdAt" ->
                 field k user
                 = field k (VObj [("id", VStr "42"); ("name", VStr "Ada");
                                  ("createdAt", VStr "yesterday")]).
Proof.
  apply (index_created_user_fields users_runtime
           (fresh_world [london_time; london_time + 1])
           (post_users user_request) user_request
           [("id", VStr "42"); ("name", VStr "Ada");
            ("createdAt", VStr "yesterday")]).
  - reflexivity.
  - reflexivity.
  - reflexivity.
  - discriminate.
  - vm_compute. reflexivity.
  - apply (bool_decide_unpack _). vm_compute. exact I.
Defined.
